(** * Workout API service (src/server/index.ts)

    A shallow embedding of the Express route handlers of the workout API
    and of the two tables they query, followed by the properties of the
    request/response contract.

    - JavaScript request data is an inductive type [value]; member access
      and truthiness follow the language.  Numbers are integers.
    - The relational store is a record with the two tables as lists of rows
      (heap order) and the two id sequences.  The columns are typed as the
      data model has them; a date or timestamp is an integer.
    - A handler is a computation in a small state-and-exception monad.  Each
      [pool.query] is one statement, executed atomically; the environment
      decides for each statement whether the store fails it (connectivity,
      constraint, ...) and what [NOW()] returns.  A statement also fails
      when the store rejects the text of a parameter.
    - Requests are handled one at a time. *)

From Stdlib Require Import ZArith Lia Ascii String.
From stdpp Require Import base option list sorting strings gmap.

Local Open Scope Z_scope.

(** ** JavaScript values *)

(** Parsed JSON, plus [undefined] for an absent property.  Numbers are kept
    as integers. *)
#[local] Set Warnings "-register-all,-clear-no-such-hyp".
Inductive value : Type :=
| VUndefined
| VNull
| VBool (b : bool)
| VNum (n : Z)
| VStr (s : string)
| VArr (xs : list value)
| VObj (props : gmap string value).

(** Thrown values: a [TypeError] of the language, or an error raised by
    [pool.query]. *)
Inductive exn : Type := TypeError | DbError.

(** [ToBoolean]. *)
Definition truthy (v : value) : bool :=
  match v with
  | VUndefined | VNull => false
  | VBool b => b
  | VNum n => negb (Z.eqb n 0)
  | VStr s => negb (String.eqb s EmptyString)
  | VArr _ | VObj _ => true
  end.

(** [Array.isArray]. *)
Definition isArray (v : value) : bool :=
  match v with VArr _ => true | _ => false end.

(** Member access [v.name] for the property names the handlers read (none of
    them is a built-in property of a number, string, boolean or array):
    [None] is the [TypeError] of reading a property of [null] or
    [undefined]. *)
Definition member (v : value) (name : string) : option value :=
  match v with
  | VUndefined | VNull => None
  | VObj props => Some (default VUndefined (props !! name))
  | VBool _ | VNum _ | VStr _ | VArr _ => Some VUndefined
  end.

(** ** Query parameters *)

(** What the driver and the store do with a parameter and are not part of
    this repository: the text encoding of arrays, objects, numbers and
    booleans, and the store's input functions for integer and date columns
    ([None]: the text is rejected, the statement fails). *)
Class PgTypes : Type := {
  encode : value -> string;
  int4in : string -> option Z;
  datein : string -> option Z
}.

Section Parameters.
Context {types : PgTypes}.

(** The driver sends [null] and [undefined] as NULL, a string as it is and
    anything else in its text encoding. *)
Definition prepareValue (v : value) : option string :=
  match v with
  | VUndefined | VNull => None
  | VStr s => Some s
  | _ => Some (encode v)
  end.

(** A parameter bound to an integer column; an integer is read back as
    itself.  The outer [None] is a rejected parameter, the inner one
    NULL. *)
Definition int_param (v : value) : option (option Z) :=
  match v with
  | VNum n => Some (Some n)
  | _ => match prepareValue v with
         | None => Some None
         | Some s => Some <$> int4in s
         end
  end.

Definition date_param (v : value) : option (option Z) :=
  match prepareValue v with
  | None => Some None
  | Some s => Some <$> datein s
  end.

Definition text_param (v : value) : option string := prepareValue v.
End Parameters.

(** ** The two tables *)

Module Treino.
(** A row of [treinos]. *)
Record t : Type := mk {
  id : Z;
  data : option Z;
  dia_semana : option string;
  foco_tecnico : option string;
  criado_em : option Z;
  atualizado_em : option Z
  }.
End Treino.

Module Secao.
(** A row of [secoes_treino]. *)
Record t : Type := mk {
  id : Z;
  treino_id : option Z;
  nome_secao : option string;
  duracao_minutos : option Z;
  conteudo : option string;
  ordem : option Z;
  criado_em : option Z
  }.
End Secao.

Record Store : Type := mkStore {
  treinos : list Treino.t;
  secoes : list Secao.t;
  treinos_seq : Z;
  secoes_seq : Z
}.

(** SQL [=] on integers: NULL equals nothing. *)
Definition sql_eq (a b : option Z) : bool :=
  match a, b with
  | Some x, Some y => Z.eqb x y
  | _, _ => false
  end.

(** The sort order of a nullable column: NULL is larger than every value
    (last in ascending, first in descending order). *)
Definition sql_leb (a b : option Z) : bool :=
  match a, b with
  | _, None => true
  | None, Some _ => false
  | Some x, Some y => Z.leb x y
  end.

Definition by_ordem (r1 r2 : Secao.t) : Prop :=
  sql_leb (Secao.ordem r1) (Secao.ordem r2) = true.

Definition by_data_desc (r1 r2 : Treino.t) : Prop :=
  sql_leb (Treino.data r2) (Treino.data r1) = true.

#[global] Instance by_ordem_dec r1 r2 : Decision (by_ordem r1 r2).
Proof. unfold by_ordem. apply _. Defined.

#[global] Instance by_data_desc_dec r1 r2 : Decision (by_data_desc r1 r2).
Proof. unfold by_data_desc. apply _. Defined.

(** ** Handlers as computations *)

Inductive outcome (A : Type) : Type :=
| Ok (a : A)
| Throw (e : exn).
Arguments Ok {A} a.
Arguments Throw {A} e.

(** What the environment decides for the [k]-th statement a request issues:
    whether the store fails it, and the value of [NOW()]. *)
Record Env : Type := mkEnv {
  fault : nat -> bool;
  now : nat -> Z
}.

Record World : Type := mkWorld {
  db : Store;
  issued : nat
}.

Definition M (A : Type) : Type := Env -> World -> World * outcome A.

Definition ret {A} (a : A) : M A := fun _ w => (w, Ok a).

Definition throw {A} (e : exn) : M A := fun _ w => (w, Throw e).

Definition bind {A B} (m : M A) (k : A -> M B) : M B :=
  fun env w =>
    match m env w with
    | (w', Ok a) => k a env w'
    | (w', Throw e) => (w', Throw e)
    end.

(** [try { m } catch (error) { h }] *)
Definition try_catch {A} (m : M A) (h : exn -> M A) : M A :=
  fun env w =>
    match m env w with
    | (w', Ok a) => (w', Ok a)
    | (w', Throw e) => h e env w'
    end.

Declare Scope handler_scope.
Delimit Scope handler_scope with handler.
Notation "x <- m ;; k" := (bind m (fun x => k))
  (at level 100, m at next level, right associativity) : handler_scope.
Notation "m ;;; k" := (bind m (fun _ => k))
  (at level 100, right associativity) : handler_scope.

(** [v.name] inside a handler. *)
Definition prop (v : value) (name : string) : M value :=
  match member v name with
  | Some x => ret x
  | None => throw TypeError
  end.

(** [for (const x of xs) { await body(x) }] *)
Fixpoint for_each {A} (xs : list A) (body : A -> M unit) : M unit :=
  match xs with
  | [] => ret tt
  | x :: rest => bind (body x) (fun _ => for_each rest body)
  end.

(** [for (const x of v)] on a value; the handlers only reach it for an
    array. *)
Definition for_of (v : value) (body : value -> M unit) : M unit :=
  match v with
  | VArr xs => for_each xs body
  | _ => throw TypeError
  end.

(** A statement maps [NOW()] and the store to the new store and its result
    rows, or fails and leaves the store as it was. *)
Definition statement (A : Type) : Type := Z -> Store -> option (Store * A).

(** [await pool.query(...)] *)
Definition pool_query {A} (stmt : statement A) : M A :=
  fun env w =>
    let k := issued w in
    if fault env k then (mkWorld (db w) (S k), Throw DbError)
    else match stmt (now env k) (db w) with
         | Some (d, rows) => (mkWorld d (S k), Ok rows)
         | None => (mkWorld (db w) (S k), Throw DbError)
         end.

(** ** Responses *)

Inductive payload : Type :=
| JHealth (status message : string)
| JError (error : string)
| JMessage (message : string)
| JTreino (row : Treino.t)
| JTreinos (rows : list Treino.t)
| JSecoes (rows : list Secao.t).

Record Response : Type := mkResponse {
  status : Z;
  json : payload
}.

Definition reply (code : Z) (body : payload) : M Response :=
  ret (mkResponse code body).

(** The 500 response of a [catch] block. *)
Definition failed (msg : string) : Response := mkResponse 500 (JError msg).

(** ** The statements the handlers issue *)

Section Service.
Context {types : PgTypes}.

(** [SELECT * FROM treinos ORDER BY data DESC] *)
Definition select_treinos : statement (list Treino.t) :=
  fun _ s => Some (s, merge_sort by_data_desc (treinos s)).

(** [SELECT * FROM treinos WHERE id = $1] *)
Definition select_treino (id : value) : statement (list Treino.t) :=
  fun _ s =>
    k ← int_param id;
    Some (s, filter (λ r, sql_eq (Some (Treino.id r)) k = true) (treinos s)).

(** [INSERT INTO treinos (data, dia_semana, foco_tecnico, criado_em,
    atualizado_em) VALUES ($1, $2, $3, NOW(), NOW()) RETURNING *] *)
Definition insert_treino (data dia_semana foco_tecnico : value)
  : statement (list Treino.t) :=
  fun t s =>
    d ← date_param data;
    let row := Treino.mk (treinos_seq s) d (text_param dia_semana)
                 (text_param foco_tecnico) (Some t) (Some t) in
    Some (mkStore (treinos s ++ [row]) (secoes s)
            (treinos_seq s + 1) (secoes_seq s), [row]).

(** [INSERT INTO secoes_treino (treino_id, nome_secao, duracao_minutos,
    conteudo, ordem, criado_em) VALUES ($1, $2, $3, $4, $5, NOW())] *)
Definition insert_secao (treino_id nome_secao duracao_minutos conteudo ordem
                           : value) : statement unit :=
  fun t s =>
    k ← int_param treino_id;
    dur ← int_param duracao_minutos;
    ord ← int_param ordem;
    let row := Secao.mk (secoes_seq s) k (text_param nome_secao) dur
                 (text_param conteudo) ord (Some t) in
    Some (mkStore (treinos s) (secoes s ++ [row])
            (treinos_seq s) (secoes_seq s + 1), tt).

(** The [SET] clause of the update applied to one row. *)
Definition set_fields (d : option Z) (dia foco : option string) (t : Z)
    (r : Treino.t) : Treino.t :=
  Treino.mk (Treino.id r) d dia foco (Treino.criado_em r) (Some t).

(** [UPDATE treinos SET data = $1, dia_semana = $2, foco_tecnico = $3,
    atualizado_em = NOW() WHERE id = $4 RETURNING *] *)
Definition update_treino (data dia_semana foco_tecnico id : value)
  : statement (list Treino.t) :=
  fun t s =>
    d ← date_param data;
    k ← int_param id;
    let hit r := sql_eq (Some (Treino.id r)) k in
    let upd r :=
      if hit r
      then set_fields d (text_param dia_semana) (text_param foco_tecnico) t r
      else r in
    Some (mkStore (upd <$> treinos s) (secoes s)
            (treinos_seq s) (secoes_seq s),
          upd <$> filter (λ r, hit r = true) (treinos s)).

(** [DELETE FROM secoes_treino WHERE treino_id = $1] *)
Definition delete_secoes (id : value) : statement unit :=
  fun _ s =>
    k ← int_param id;
    Some (mkStore (treinos s)
            (filter (λ r, sql_eq (Secao.treino_id r) k = false) (secoes s))
            (treinos_seq s) (secoes_seq s), tt).

(** [DELETE FROM treinos WHERE id = $1 RETURNING *] *)
Definition delete_treino (id : value) : statement (list Treino.t) :=
  fun _ s =>
    k ← int_param id;
    Some (mkStore
            (filter (λ r, sql_eq (Some (Treino.id r)) k = false) (treinos s))
            (secoes s) (treinos_seq s) (secoes_seq s),
          filter (λ r, sql_eq (Some (Treino.id r)) k = true) (treinos s)).

(** [SELECT * FROM secoes_treino WHERE treino_id = $1 ORDER BY ordem] *)
Definition select_secoes (id : value) : statement (list Secao.t) :=
  fun _ s =>
    k ← int_param id;
    Some (s, merge_sort by_ordem
               (filter (λ r, sql_eq (Secao.treino_id r) k = true) (secoes s))).

(** ** The route handlers *)

Local Open Scope handler_scope.

(** [app.get('/api/health')] *)
Definition get_health : M Response :=
  reply 200 (JHealth "OK" "Backend is running").

(** [app.get('/api/treinos')] *)
Definition get_treinos : M Response :=
  try_catch
    (result <- pool_query select_treinos;;
     reply 200 (JTreinos result))
    (fun _ => reply 500 (JError "Failed to fetch treinos")).

(** [app.get('/api/treinos/:id')] *)
Definition get_treino (id : string) : M Response :=
  try_catch
    (result <- pool_query (select_treino (VStr id));;
     match result with
     | [] => reply 404 (JError "Treino not found")
     | row :: _ => reply 200 (JTreino row)
     end)
    (fun _ => reply 500 (JError "Failed to fetch treino")).

(** The body of the [for] loop of both writers. *)
Definition insert_each (treino_id : value) (secao : value) : M unit :=
  nome_secao <- prop secao "nome_secao";;
  duracao_minutos <- prop secao "duracao_minutos";;
  conteudo <- prop secao "conteudo";;
  ordem <- prop secao "ordem";;
  pool_query (insert_secao treino_id nome_secao duracao_minutos conteudo ordem).

(** [if (secoes && Array.isArray(secoes)) { for (const secao of secoes) ... }] *)
Definition insert_sections (treino_id : value) (secoes : value) : M unit :=
  if truthy secoes && isArray secoes
  then for_of secoes (insert_each treino_id)
  else ret tt.

(** [app.post('/api/treinos')] *)
Definition post_treino (body : value) : M Response :=
  try_catch
    (data <- prop body "data";;
     dia_semana <- prop body "dia_semana";;
     foco_tecnico <- prop body "foco_tecnico";;
     secoes <- prop body "secoes";;
     result <- pool_query (insert_treino data dia_semana foco_tecnico);;
     match result with
     | [] => throw TypeError
     | row :: _ =>
       let treino_id := VNum (Treino.id row) in
       insert_sections treino_id secoes;;;
       reply 201 (JTreino row)
     end)
    (fun _ => reply 500 (JError "Failed to create treino")).

(** [app.put('/api/treinos/:id')] *)
Definition put_treino (id : string) (body : value) : M Response :=
  try_catch
    (data <- prop body "data";;
     dia_semana <- prop body "dia_semana";;
     foco_tecnico <- prop body "foco_tecnico";;
     secoes <- prop body "secoes";;
     result <- pool_query
                 (update_treino data dia_semana foco_tecnico (VStr id));;
     match result with
     | [] => reply 404 (JError "Treino not found")
     | row :: _ =>
       pool_query (delete_secoes (VStr id));;;
       insert_sections (VStr id) secoes;;;
       reply 200 (JTreino row)
     end)
    (fun _ => reply 500 (JError "Failed to update treino")).

(** [app.delete('/api/treinos/:id')] *)
Definition delete_treino_handler (id : string) : M Response :=
  try_catch
    (pool_query (delete_secoes (VStr id));;;
     result <- pool_query (delete_treino (VStr id));;
     match result with
     | [] => reply 404 (JError "Treino not found")
     | _ :: _ => reply 200 (JMessage "Treino deleted successfully")
     end)
    (fun _ => reply 500 (JError "Failed to delete treino")).

(** [app.get('/api/treinos/:id/secoes')] *)
Definition get_secoes (id : string) : M Response :=
  try_catch
    (result <- pool_query (select_secoes (VStr id));;
     reply 200 (JSecoes result))
    (fun _ => reply 500 (JError "Failed to fetch sections")).

(** One request against a store: the store afterwards and the response.  An
    error that escapes a handler reaches the error-handling middleware. *)
Definition serve (h : M Response) (env : Env) (s : Store) : Store * Response :=
  match h env (mkWorld s 0) with
  | (w, Ok r) => (db w, r)
  | (w, Throw _) => (db w, mkResponse 500 (JError "Internal server error"))
  end.

End Service.

(** ** Store invariants *)

(** The primary keys: ids are unique and below the next value of their
    sequence. *)
Record wf_store (s : Store) : Prop := mk_wf {
  wf_treino_ids : NoDup (Treino.id <$> treinos s);
  wf_treino_seq : Forall (λ r, Treino.id r < treinos_seq s) (treinos s);
  wf_secao_ids : NoDup (Secao.id <$> secoes s);
  wf_secao_seq : Forall (λ r, Secao.id r < secoes_seq s) (secoes s)
}.

(** The foreign key: every section belongs to a workout of the store. *)
Definition referential (s : Store) : Prop :=
  Forall (λ r, ∃ w, w ∈ treinos s ∧ Secao.treino_id r = Some (Treino.id w))
         (secoes s).

(** The rows of a workout, and the rows of the other workouts. *)
Definition secoes_of (z : Z) (s : Store) : list Secao.t :=
  filter (λ r, Secao.treino_id r = Some z) (secoes s).

Definition secoes_off (k : option Z) (s : Store) : list Secao.t :=
  filter (λ r, k = None ∨ Secao.treino_id r ≠ k) (secoes s).

Definition treinos_off (k : option Z) (s : Store) : list Treino.t :=
  filter (λ r, Some (Treino.id r) ≠ k) (treinos s).

(** Two stores agree on the rows that do not belong to workout key [k]. *)
Definition same_off (k : option Z) (s s' : Store) : Prop :=
  treinos_off k s' = treinos_off k s ∧ secoes_off k s' = secoes_off k s.

Section Vocabulary.
Context {types : PgTypes}.

(** The workout rows a path parameter names. *)
Definition found (id : string) (s : Store) (row : Treino.t) : Prop :=
  row ∈ treinos s ∧ int4in id = Some (Treino.id row).

(** A destructured property of the request body. *)
Definition field (body : value) (name : string) : value :=
  default VUndefined (member body name).

(** The elements the section loop visits: those of an array, none of
    anything else. *)
Definition elements (v : value) : list value :=
  match v with
  | VArr xs => xs
  | _ => []
  end.

(** The row the workout insert creates. *)
Definition created (d : option Z) (dia foco : option string) (t : Z)
    (s : Store) : Treino.t :=
  Treino.mk (treinos_seq s) d dia foco (Some t) (Some t).

(** What the update makes of a row, for key [z]. *)
Definition updated (d : option Z) (dia foco : option string) (t z : Z)
    (r : Treino.t) : Treino.t :=
  if Z.eqb (Treino.id r) z then set_fields d dia foco t r else r.

(** The four properties the loop reads of an element, as the loop reads
    them. *)
Definition secao_params (v : value) : option (value * value * value * value) :=
  n ← member v "nome_secao";
  d ← member v "duracao_minutos";
  c ← member v "conteudo";
  o ← member v "ordem";
  Some (n, d, c, o).

(** The row one section insert adds for element [v]: [k] is the workout key
    bound to [$1], [t] the value of [NOW()], [seq] the next section id. *)
Definition secao_row (k : option Z) (t seq : Z) (v : value) : option Secao.t :=
  p ← secao_params v;
  let '(n, d, c, o) := p in
  dur ← int_param d;
  ord ← int_param o;
  Some (Secao.mk seq k (text_param n) dur (text_param c) ord (Some t)).

Definition add_secao (row : Secao.t) (s : Store) : Store :=
  mkStore (treinos s) (secoes s ++ [row]) (treinos_seq s) (secoes_seq s + 1).

(** An element the section insert takes: its properties can be read and the
    store accepts the two integers. *)
Definition acceptable (v : value) : Prop :=
  is_Some (secao_row None 0 0 v).

(** Row [row] is what was submitted as [v] for workout key [k]. *)
Definition submitted (k : option Z) (v : value) (row : Secao.t) : Prop :=
  ∃ n d c o,
    member v "nome_secao" = Some n ∧
    member v "duracao_minutos" = Some d ∧
    member v "conteudo" = Some c ∧
    member v "ordem" = Some o ∧
    Secao.treino_id row = k ∧
    Secao.nome_secao row = text_param n ∧
    int_param d = Some (Secao.duracao_minutos row) ∧
    Secao.conteudo row = text_param c ∧
    int_param o = Some (Secao.ordem row) ∧
    is_Some (Secao.criado_em row).

End Vocabulary.

(** ** The routing table and the start-up configuration *)

(** A request the router has matched to a route: the method and path
    pattern, with the path parameter and the parsed body. *)
Inductive request : Type :=
| GetHealth
| GetTreinos
| GetTreino (id : string)
| PostTreino (body : value)
| PutTreino (id : string) (body : value)
| DeleteTreino (id : string)
| GetSecoes (id : string).

(** [a || b] *)
Definition js_or (a b : value) : value := if truthy a then a else b.

(** [process.env.NAME]: a string when the variable is set, [undefined]
    otherwise. *)
Definition getenv (vars : gmap string string) (name : string) : value :=
  match vars !! name with
  | Some s => VStr s
  | None => VUndefined
  end.

(** [process.env.FRONTEND_URL || 'http://localhost:5173'], the [origin] of
    the CORS options and the address the start-up banner prints. *)
Definition cors_origin (vars : gmap string string) : value :=
  js_or (getenv vars "FRONTEND_URL") (VStr "http://localhost:5173").

(** [const PORT = process.env.PORT || 3000] *)
Definition PORT (vars : gmap string string) : value :=
  js_or (getenv vars "PORT") (VNum 3000).

(** [process.env.DATABASE_URL ? 'Connected' : 'Not configured'] *)
Definition database_banner (vars : gmap string string) : string :=
  if truthy (getenv vars "DATABASE_URL") then "Connected" else "Not configured".

Section Router.
Context {types : PgTypes}.

(** The handler each [app.get], [app.post], [app.put] and [app.delete]
    registers. *)
Definition route (q : request) : M Response :=
  match q with
  | GetHealth => get_health
  | GetTreinos => get_treinos
  | GetTreino id => get_treino id
  | PostTreino body => post_treino body
  | PutTreino id body => put_treino id body
  | DeleteTreino id => delete_treino_handler id
  | GetSecoes id => get_secoes id
  end.

(** Requests served one after the other, each with its own environment. *)
Fixpoint serve_all (qs : list (request * Env)) (s : Store) : Store :=
  match qs with
  | [] => s
  | (q, env) :: rest => serve_all rest (fst (serve (route q) env s))
  end.

End Router.

(** The routes registered with [app.get]. *)
Definition is_get (q : request) : bool :=
  match q with
  | GetHealth | GetTreinos | GetTreino _ | GetSecoes _ => true
  | PostTreino _ | PutTreino _ _ | DeleteTreino _ => false
  end.

(** The path parameter of a route that has one. *)
Definition path_id (q : request) : option string :=
  match q with
  | GetTreino id | PutTreino id _ | DeleteTreino id | GetSecoes id => Some id
  | GetHealth | GetTreinos | PostTreino _ => None
  end.

(** [null] or [undefined], which the driver sends as NULL. *)
Definition nullish (v : value) : Prop := v = VUndefined ∨ v = VNull.

(** The status codes a route answers with. *)
Definition statuses (q : request) : list Z :=
  match q with
  | GetHealth => [200]
  | GetTreinos | GetSecoes _ => [200; 500]
  | PostTreino _ => [201; 500]
  | GetTreino _ | PutTreino _ _ | DeleteTreino _ => [200; 404; 500]
  end.

(** The text of the 500 response of a route. *)
Definition failure_text (q : request) : string :=
  match q with
  | GetHealth => "Internal server error"
  | GetTreinos => "Failed to fetch treinos"
  | GetTreino _ => "Failed to fetch treino"
  | PostTreino _ => "Failed to create treino"
  | PutTreino _ _ => "Failed to update treino"
  | DeleteTreino _ => "Failed to delete treino"
  | GetSecoes _ => "Failed to fetch sections"
  end.

(** The most statements a route issues for a request. *)
Definition budget (q : request) : nat :=
  match q with
  | GetHealth => 0
  | GetTreinos | GetTreino _ | GetSecoes _ => 1
  | PostTreino body => 1 + length (elements (field body "secoes"))
  | PutTreino _ body => 2 + length (elements (field body "secoes"))
  | DeleteTreino _ => 2
  end.

(** The store fails none of the statements numbered from [a] up to, not
    including, [b]. *)
Definition quiet (env : Env) (a b : nat) : Prop :=
  ∀ k, (a ≤ k)%nat → (k < b)%nat → fault env k = false.

(** A computation that issues no statement after one the store failed: when
    it completes the store failed none, when it throws at most the last. *)
Definition careful {A} (m : M A) : Prop :=
  ∀ env w w' o, m env w = (w', o) →
    (issued w ≤ issued w')%nat ∧
    match o with
    | Ok _ => quiet env (issued w) (issued w')
    | Throw _ => quiet env (issued w) (pred (issued w'))
    end.

(** A computation that issues at most [n] statements. *)
Definition within {A} (n : nat) (m : M A) : Prop :=
  ∀ env w w' o, m env w = (w', o) →
    (issued w' ≤ issued w + n)%nat.

(** A store with empty tables, whatever its sequences are at. *)
Definition blank (s : Store) : Prop := treinos s = [] ∧ secoes s = [].

(** ** A concrete driver and store, for running the handlers *)

Module Demo.

(** Decimal digits only. *)
Fixpoint digits (s : string) (acc : Z) : option Z :=
  match s with
  | EmptyString => Some acc
  | String c rest =>
    let n := Z.of_nat (Ascii.nat_of_ascii c) in
    if (48 <=? n) && (n <=? 57) then digits rest (10 * acc + (n - 48))
    else None
  end.

Definition number (s : string) : option Z :=
  match s with
  | EmptyString => None
  | _ => digits s 0
  end.

Fixpoint undash (s : string) : string :=
  match s with
  | EmptyString => EmptyString
  | String c rest =>
    if Ascii.eqb c "-"%char then undash rest else String c (undash rest)
  end.

(** Integers in decimal, dates as [YYYY-MM-DD] read as the number
    [YYYYMMDD]; arrays, objects and booleans encode to a text neither
    accepts. *)
Definition pg : PgTypes :=
  {| encode := fun _ => "{}";
     int4in := number;
     datein := fun s => number (undash s) |}.

#[local] Existing Instance pg.

Definition obj (ps : list (string * value)) : value := VObj (list_to_map ps).

Definition secao (nome : string) (dur : Z) (txt : string) (ord : Z) : value :=
  obj [("nome_secao", VStr nome); ("duracao_minutos", VNum dur);
       ("conteudo", VStr txt); ("ordem", VNum ord)].

Definition treino (data dia foco : string) (secoes : value) : value :=
  obj [("data", VStr data); ("dia_semana", VStr dia);
       ("foco_tecnico", VStr foco); ("secoes", secoes)].

(** The store answers every statement; [NOW()] is 1000 plus the statement's
    number. *)
Definition calm : Env := mkEnv (fun _ => false) (fun k => 1000 + Z.of_nat k).

(** The store fails statement [n] and answers the others. *)
Definition failing (n : nat) : Env :=
  mkEnv (fun k => Nat.eqb k n) (fun k => 1000 + Z.of_nat k).

Definition empty : Store := mkStore [] [] 1 1.

(** Two workouts; the first has three sections, submitted out of order. *)
Definition two : Store :=
  let s1 := fst (serve
    (post_treino (treino "2024-01-01" "segunda" "guarda"
       (VArr [secao "tecnica" 30 "passagem" 2; secao "aquecimento" 10 "corrida" 1;
              secao "luta" 20 "rola" 3]))) calm empty) in
  fst (serve
    (post_treino (treino "2024-03-01" "sexta" "raspagem"
       (VArr [secao "drill" 15 "gancho" 1]))) calm s1).

(** The body of an update of the first workout, with one section. *)
Definition one_section : value :=
  treino "2024-02-01" "terca" "meia guarda" (VArr [secao "drill" 15 "gancho" 1]).

(** A body whose second section is [null]. *)
Definition broken_section : value :=
  treino "2024-02-01" "terca" "meia guarda"
    (VArr [secao "drill" 15 "gancho" 1; VNull; secao "luta" 20 "rola" 3]).

(** A body whose [secoes] is a string. *)
Definition text_sections : value :=
  treino "2024-02-01" "terca" "meia guarda" (VStr "nenhuma").

(** Three workouts dated 2024-01-01, 2024-03-01 and 2024-02-01, created in
    that order. *)
Definition three : Store :=
  fst (serve (post_treino (treino "2024-02-01" "terca" "queda" VUndefined))
         calm two).

(** The first workout of [two]. *)
Definition primeiro : Treino.t :=
  Treino.mk 1 (Some 20240101) (Some "segunda") (Some "guarda")
    (Some 1000) (Some 1000).

(** A body without any of the fields. *)
Definition no_fields : value := obj [].

(** The store fails every statement. *)
Definition down : Env := mkEnv (fun _ => true) (fun k => 1000 + Z.of_nat k).

End Demo.

(** ** Properties *)

Lemma sql_eq_true a b : sql_eq a b = true ↔ ∃ z, a = Some z ∧ b = Some z.
Proof.
  destruct a as [x|], b as [y|]; simpl.
  1: rewrite Z.eqb_eq; split;
       [intros ->; eauto | by intros (z & [= ->] & [= ->])].
  all: split; [done | by intros (z & ? & ?)].
Qed.

Lemma sql_eq_false a b : sql_eq a b = false ↔ ¬ ∃ z, a = Some z ∧ b = Some z.
Proof.
  rewrite <- sql_eq_true. destruct (sql_eq a b); naive_solver.
Qed.

Lemma sql_leb_total a b : sql_leb a b = true ∨ sql_leb b a = true.
Proof.
  destruct a as [x|], b as [y|]; simpl; auto.
  destruct (Z.leb_spec x y); [by left|right]. apply Z.leb_le. lia.
Qed.

Lemma sql_leb_trans a b c :
  sql_leb a b = true → sql_leb b c = true → sql_leb a c = true.
Proof.
  destruct a as [x|], b as [y|], c as [z|]; simpl; try congruence.
  rewrite !Z.leb_le. lia.
Qed.

#[global] Instance by_ordem_total : Total by_ordem.
Proof. intros r1 r2. apply sql_leb_total. Qed.

#[global] Instance by_ordem_trans : Transitive by_ordem.
Proof. intros r1 r2 r3. apply sql_leb_trans. Qed.

#[global] Instance by_data_desc_total : Total by_data_desc.
Proof. intros r1 r2. apply sql_leb_total. Qed.

#[global] Instance by_data_desc_trans : Transitive by_data_desc.
Proof. intros r1 r2 r3 ? ?. eapply sql_leb_trans; eauto. Qed.

Lemma key_unique {A} (f : A → Z) (l : list A) (x y : A) :
  NoDup (f <$> l) → x ∈ l → y ∈ l → f x = f y → x = y.
Proof.
  induction l as [|a l IH]; intros ND Hx Hy E; [by apply elem_of_nil in Hx|].
  rewrite fmap_cons in ND. apply NoDup_cons in ND as [Ha ND].
  apply elem_of_cons in Hx as [->|Hx]; apply elem_of_cons in Hy as [->|Hy];
    auto.
  - destruct Ha. rewrite E. by apply list_elem_of_fmap_2.
  - destruct Ha. rewrite <- E. by apply list_elem_of_fmap_2.
Qed.

Section Properties.
Context {types : PgTypes}.

(** C7. [GET /api/treinos] leaves the store alone; when the store answers
    the query the response is 200 with all workout rows, ordered by [data]
    descending (possibly none), and when the query fails it is 500 with the
    generic error. *)
Theorem get_treinos_lists_by_data_desc (env : Env) (s : Store) :
  ∃ rows,
    rows ≡ₚ treinos s ∧
    StronglySorted by_data_desc rows ∧
    serve get_treinos env s =
      (s, if fault env 0%nat
          then mkResponse 500 (JError "Failed to fetch treinos")
          else mkResponse 200 (JTreinos rows)).
Proof.
  exists (merge_sort by_data_desc (treinos s)). split; [|split].
  - apply merge_sort_Permutation.
  - apply StronglySorted_merge_sort; apply _.
  - unfold serve, get_treinos, try_catch, bind, pool_query, select_treinos.
    simpl. by destruct (fault env 0%nat).
Qed.

Lemma int_param_str (id : string) : int_param (VStr id) = Some <$> int4in id.
Proof. reflexivity. Qed.

Lemma select_by_id_head (l : list Treino.t) (z : Z) row rest :
  filter (λ r, sql_eq (Some (Treino.id r)) (Some z) = true) l = row :: rest →
  row ∈ l ∧ Treino.id row = z.
Proof.
  intros E. assert (Hin : row ∈ row :: rest) by apply list_elem_of_here.
  rewrite <- E in Hin. apply list_elem_of_filter in Hin as [Hz Hin].
  split; [done|]. simpl in Hz. by apply Z.eqb_eq in Hz.
Qed.

Lemma select_by_id_nil (l : list Treino.t) (z : Z) row :
  filter (λ r, sql_eq (Some (Treino.id r)) (Some z) = true) l = [] →
  row ∈ l → Treino.id row ≠ z.
Proof.
  intros E Hin Hz. subst z.
  eapply (filter_nil_not_elem_of _ _ row) in E; [done|].
  simpl. apply Z.eqb_refl.
Qed.

(** C5. [GET /api/treinos/:id] answers 500 with the generic error exactly
    when the store query fails; otherwise 404 with the not-found error
    exactly when no workout row has the id, and 200 with the row of that id
    when there is one.  The store is not changed. *)
Theorem get_treino_by_id (id : string) (env : Env) (s : Store) :
  wf_store s →
  let failed := fault env 0%nat = true ∨ int4in id = None in
  ∃ r, serve (get_treino id) env s = (s, r) ∧
    (status r = 500 ↔ failed) ∧
    (status r = 500 → json r = JError "Failed to fetch treino") ∧
    (status r = 404 ↔ ¬ failed ∧ ∀ row, ¬ found id s row) ∧
    (status r = 404 → json r = JError "Treino not found") ∧
    (∀ row, ¬ failed → found id s row → r = mkResponse 200 (JTreino row)).
Proof.
  intros WF failed. subst failed.
  unfold serve, get_treino, try_catch, bind, pool_query, select_treino.
  simpl. destruct (fault env 0%nat) eqn:F; simpl.
  { eexists; split; [done|]. simpl. naive_solver. }
  destruct (int4in id) as [z|] eqn:K; simpl.
  2: { eexists; split; [done|]. simpl. naive_solver. }
  destruct (filter _ (treinos s)) as [|row rest] eqn:E; simpl.
  - assert (Hno : ∀ row, ¬ found id s row).
    { intros row [Hin Hz]. rewrite K in Hz. injection Hz as ->.
      by eapply select_by_id_nil in E. }
    eexists; split; [done|]. simpl. naive_solver.
  - apply select_by_id_head in E as [Hin Hz].
    assert (Hrow : found id s row) by (split; [done|by rewrite Hz]).
    eexists; split; [done|]. simpl. split_and!; try naive_solver.
    intros row' _ [Hin' Hz']. do 2 f_equal.
    eapply (key_unique Treino.id); eauto using wf_treino_ids. congruence.
Qed.

Lemma secoes_where (k : Z) (s : Store) :
  filter (λ r, sql_eq (Secao.treino_id r) (Some k) = true) (secoes s)
  = secoes_of k s.
Proof.
  apply list_filter_iff. intros r. rewrite sql_eq_true. naive_solver.
Qed.

Lemma secoes_of_orphan (id : string) (z : Z) (s : Store) :
  referential s → int4in id = Some z → (∀ row, ¬ found id s row) →
  secoes_of z s = [].
Proof.
  intros Ref K Hno. apply elem_of_nil_inv. intros r Hr.
  apply list_elem_of_filter in Hr as [Hz Hin].
  unfold referential in Ref. rewrite Forall_forall in Ref.
  destruct (Ref r Hin) as (w & Hw & Hk).
  apply (Hno w). split; [done|]. congruence.
Qed.

(** C6. [GET /api/treinos/:id/secoes] leaves the store alone and, when the
    store answers the query, responds 200 with exactly the sections whose
    [treino_id] is the id, in ascending order of [ordem]; no workout is
    looked up, so for an id without workout the answer is still 200, with
    the empty array when the foreign key holds. *)
Theorem get_secoes_by_ordem (id : string) (env : Env) (s : Store) :
  ∃ r, serve (get_secoes id) env s = (s, r) ∧
    (status r = 500 ↔ fault env 0%nat = true ∨ int4in id = None) ∧
    (∀ z, fault env 0%nat = false → int4in id = Some z →
       ∃ rows, r = mkResponse 200 (JSecoes rows) ∧
         rows ≡ₚ secoes_of z s ∧
         StronglySorted by_ordem rows ∧
         (referential s → (∀ row, ¬ found id s row) → rows = [])).
Proof.
  unfold serve, get_secoes, try_catch, bind, pool_query, select_secoes.
  simpl. destruct (fault env 0%nat) eqn:F; simpl.
  { eexists; split; [done|]. simpl. split; [tauto|]. intros; discriminate. }
  destruct (int4in id) as [z|] eqn:K; simpl.
  2: { eexists; split; [done|]. simpl. split; [tauto|]. intros; discriminate. }
  eexists; split; [done|]. simpl. split.
  { split; [discriminate|]. intros [|]; discriminate. }
  intros z' _ [= <-]. eexists; split; [done|].
  change (filter _ (secoes s))
    with (filter (λ r, sql_eq (Secao.treino_id r) (Some z) = true) (secoes s)).
  rewrite secoes_where. split; [apply merge_sort_Permutation|].
  split; [apply StronglySorted_merge_sort; apply _|].
  intros Ref Hno. rewrite (secoes_of_orphan id z s Ref K Hno). reflexivity.
Qed.

(** *** The section loop *)

Lemma secao_row_submitted (k : option Z) (t seq : Z) (v : value) row :
  secao_row k t seq v = Some row →
  submitted k v row ∧ Secao.id row = seq ∧ Secao.criado_em row = Some t.
Proof.
  unfold secao_row, secao_params, submitted.
  destruct (member v "nome_secao") as [n|]; [|done].
  destruct (member v "duracao_minutos") as [d|]; [|done].
  destruct (member v "conteudo") as [c|]; [|done].
  destruct (member v "ordem") as [o|]; [|done]. simpl.
  destruct (int_param d) as [dur|] eqn:Hd; [|done].
  destruct (int_param o) as [ord|] eqn:Ho; [|done]. simpl.
  intros [= <-]. simpl. split; [|done].
  exists n, d, c, o. split_and!; try done; eauto.
Qed.

Lemma acceptable_row (k : option Z) (t seq : Z) (v : value) :
  acceptable v ↔ is_Some (secao_row k t seq v).
Proof.
  unfold acceptable, secao_row.
  destruct (secao_params v) as [[[[n d] c] o]|]; simpl; [|done].
  destruct (int_param d); simpl; [|done].
  destruct (int_param o); simpl; [|done].
  split; eauto.
Qed.

Lemma insert_each_run tid (k : option Z) (v : value) (env : Env) (w : World) :
  int_param tid = Some k →
  insert_each tid v env w =
    match secao_params v with
    | None => (w, Throw TypeError)
    | Some _ =>
      if fault env (issued w)
      then (mkWorld (db w) (S (issued w)), Throw DbError)
      else match secao_row k (now env (issued w)) (secoes_seq (db w)) v with
           | Some row => (mkWorld (add_secao row (db w)) (S (issued w)), Ok tt)
           | None => (mkWorld (db w) (S (issued w)), Throw DbError)
           end
    end.
Proof.
  intros K.
  unfold insert_each, secao_row, secao_params, prop, bind, pool_query,
    insert_secao, throw, ret.
  destruct (member v "nome_secao") as [n|]; [|done].
  destruct (member v "duracao_minutos") as [d|]; [|done].
  destruct (member v "conteudo") as [c|]; [|done].
  destruct (member v "ordem") as [o|]; [|done]. simpl.
  destruct (fault env (issued w)); [done|]. rewrite K. simpl.
  destruct (int_param d) as [dur|]; [|done]. simpl.
  destruct (int_param o) as [ord|]; done.
Qed.

(** Whatever the loop's outcome, it has appended the rows of a prefix of the
    submitted elements, with fresh consecutive ids, and touched nothing
    else; on normal completion the prefix is the whole array. *)
Lemma for_each_insert tid (k : option Z) (xs : list value) env w w' o :
  int_param tid = Some k →
  for_each xs (insert_each tid) env w = (w', o) →
  ∃ new,
    db w' = mkStore (treinos (db w)) (secoes (db w) ++ new)
              (treinos_seq (db w))
              (secoes_seq (db w) + Z.of_nat (length new)) ∧
    Secao.id <$> new = seqZ (secoes_seq (db w)) (Z.of_nat (length new)) ∧
    Forall2 (submitted k) (take (length new) xs) new ∧
    match o with
    | Ok _ => length new = length xs
    | Throw _ => (length new < length xs)%nat
    end.
Proof.
  intros K. revert w. induction xs as [|x xs IH]; intros w Hrun.
  - injection Hrun as <- <-. exists []. simpl.
    rewrite app_nil_r, Z.add_0_r. by destruct (db w).
  - assert (Hstop : ∀ e n, w' = mkWorld (db w) n → o = Throw e →
      ∃ new,
        db w' = mkStore (treinos (db w)) (secoes (db w) ++ new)
                  (treinos_seq (db w))
                  (secoes_seq (db w) + Z.of_nat (length new)) ∧
        Secao.id <$> new = seqZ (secoes_seq (db w)) (Z.of_nat (length new)) ∧
        Forall2 (submitted k) (take (length new) (x :: xs)) new ∧
        match o with
        | Ok _ => length new = length (x :: xs)
        | Throw _ => (length new < length (x :: xs))%nat
        end).
    { intros e n -> ->. exists []. simpl.
      rewrite app_nil_r, Z.add_0_r. split; [by destruct (db w)|].
      split_and!; [done|constructor|lia]. }
    simpl in Hrun. unfold bind in Hrun.
    rewrite (insert_each_run tid k) in Hrun by done.
    destruct (secao_params x); [|injection Hrun as <- <-;
      by eapply (Hstop _ (issued w)); [destruct w|]].
    destruct (fault env (issued w));
      [injection Hrun as <- <-; by eapply Hstop|].
    destruct (secao_row _ _ _ x) as [row|] eqn:R;
      [|injection Hrun as <- <-; by eapply Hstop].
    apply secao_row_submitted in R as (Hsub & Hid & _).
    apply IH in Hrun as (new & Hdb & Hids & Hall & Hlen).
    unfold add_secao in *.
    cbn [db secoes_seq secoes treinos treinos_seq] in *.
    exists (row :: new). cbn [length take]. split_and!.
    + rewrite Hdb. f_equal; [by rewrite <- app_assoc|lia].
    + rewrite fmap_cons, Hid, Hids.
      rewrite (seqZ_cons (secoes_seq (db w))) by lia. do 2 f_equal; lia.
    + by constructor.
    + destruct o; lia.
Qed.

(** When every element is acceptable and the store fails none of the
    statements, the loop completes. *)
Lemma for_each_insert_ok tid (k : option Z) (xs : list value) env w :
  int_param tid = Some k →
  Forall acceptable xs →
  (∀ i, (i < length xs)%nat → fault env (issued w + i) = false) →
  ∃ w', for_each xs (insert_each tid) env w = (w', Ok tt) ∧
        issued w' = (issued w + length xs)%nat.
Proof.
  intros K Hacc. revert w. induction Hacc as [|x xs Hx _ IH]; intros w Hf.
  - exists w. split; [done|]. simpl. lia.
  - simpl. unfold bind. rewrite (insert_each_run tid k) by done.
    apply (acceptable_row k (now env (issued w)) (secoes_seq (db w))) in Hx.
    destruct Hx as [row Hrow]. rewrite Hrow.
    unfold secao_row in Hrow. destruct (secao_params x); [|done].
    clear Hrow.
    assert (F : fault env (issued w) = false).
    { rewrite <- (Nat.add_0_r (issued w)). apply Hf. simpl. lia. }
    rewrite F.
    destruct (IH (mkWorld (add_secao row (db w)) (S (issued w)))) as (w' & -> & Hn).
    { intros i Hi. simpl. replace (S (issued w + i)) with (issued w + S i)%nat by lia.
      apply Hf. simpl. lia. }
    exists w'. split; [done|]. simpl in *. lia.
Qed.

Lemma for_each_app {A} (xs ys : list A) (body : A → M unit) env w :
  for_each (xs ++ ys) body env w =
    match for_each xs body env w with
    | (w1, Ok _) => for_each ys body env w1
    | (w1, Throw e) => (w1, Throw e)
    end.
Proof.
  revert w. induction xs as [|x xs IH]; intros w; simpl; [done|].
  unfold bind. destruct (body x env w) as [w1 [[]|e]]; [apply IH|done].
Qed.

(** *** The writers, statement by statement *)

Lemma member_field (body : value) (a b : string) :
  member body a ≠ None → member body b = Some (field body b).
Proof. unfold field. by destruct body. Qed.

Lemma field_member (body : value) (name : string) (v : value) :
  member body name = Some v → field body name = v.
Proof. unfold field. by intros ->. Qed.

Lemma put_treino_run (id : string) (body : value) (env : Env) (s : Store) :
  serve (put_treino id body) env s =
    match member body "data" with
    | None => (s, failed "Failed to update treino")
    | Some _ =>
      if fault env 0%nat then (s, failed "Failed to update treino")
      else
        match update_treino (field body "data") (field body "dia_semana")
                (field body "foco_tecnico") (VStr id) (now env 0%nat) s with
        | None => (s, failed "Failed to update treino")
        | Some (s1, []) => (s1, mkResponse 404 (JError "Treino not found"))
        | Some (s1, row :: _) =>
          if fault env 1%nat then (s1, failed "Failed to update treino")
          else
            match delete_secoes (VStr id) (now env 1%nat) s1 with
            | None => (s1, failed "Failed to update treino")
            | Some (s2, _) =>
              match insert_sections (VStr id) (field body "secoes") env
                      (mkWorld s2 2) with
              | (w, Ok _) => (db w, mkResponse 200 (JTreino row))
              | (w, Throw _) => (db w, failed "Failed to update treino")
              end
            end
        end
    end.
Proof.
  unfold serve, put_treino, try_catch, bind, prop, field.
  destruct (member body "data") as [data|] eqn:Hd; [|done].
  assert (Hb : member body "data" ≠ None) by congruence.
  rewrite !(member_field body "data") by done. cbn [default].
  unfold pool_query, reply, ret. cbn [issued db].
  destruct (fault env 0%nat); [done|].
  destruct (update_treino _ _ _ _ _ s) as [[s1 [|row rows]]|]; try done.
  cbn [issued db]. destruct (fault env 1%nat); [done|].
  destruct (delete_secoes _ _ s1) as [[s2 []]|]; [|done].
  by destruct (insert_sections _ _ env _) as [w [[]|e]].
Qed.

Lemma filter_all {A} (P : A → Prop) `{∀ x, Decision (P x)} (l : list A) :
  Forall P l → filter P l = l.
Proof.
  induction 1 as [|x l Hx _ IH]; [done|]. by rewrite filter_cons_True, IH.
Qed.

Lemma filter_none {A} (P : A → Prop) `{∀ x, Decision (P x)} (l : list A) :
  Forall (λ x, ¬ P x) l → filter P l = [].
Proof.
  induction 1 as [|x l Hx _ IH]; [done|]. by rewrite filter_cons_False.
Qed.

Lemma submitted_key (k : option Z) (xs : list value) (new : list Secao.t) :
  Forall2 (submitted k) xs new → Forall (λ r, Secao.treino_id r = k) new.
Proof.
  induction 1 as [|x r xs new Hx _ IH]; constructor; [|done].
  by destruct Hx as (n & d & c & o & _ & _ & _ & _ & Hk & _).
Qed.

Lemma update_treino_inv data dia foco (id : string) (t : Z) s s1 rows :
  update_treino data dia foco (VStr id) t s = Some (s1, rows) →
  ∃ d z, date_param data = Some d ∧ int4in id = Some z ∧
    s1 = mkStore
           (updated d (text_param dia) (text_param foco) t z <$> treinos s)
           (secoes s) (treinos_seq s) (secoes_seq s) ∧
    rows = updated d (text_param dia) (text_param foco) t z <$>
             filter (λ r, Treino.id r = z) (treinos s).
Proof.
  unfold update_treino. rewrite int_param_str.
  destruct (date_param data) as [d|]; [|done].
  destruct (int4in id) as [z|]; [|done]. simpl.
  intros [= <- <-]. exists d, z. split_and!; try done.
  f_equal. apply list_filter_iff. intros r. apply Z.eqb_eq.
Qed.

Lemma delete_secoes_inv (id : string) (t z : Z) s1 s2 u :
  int4in id = Some z →
  delete_secoes (VStr id) t s1 = Some (s2, u) →
  s2 = mkStore (treinos s1)
         (filter (λ r, Secao.treino_id r ≠ Some z) (secoes s1))
         (treinos_seq s1) (secoes_seq s1).
Proof.
  intros K. unfold delete_secoes. rewrite int_param_str, K. simpl.
  intros [= <-]. f_equal. apply list_filter_iff. intros r.
  rewrite sql_eq_false. naive_solver.
Qed.

Lemma insert_sections_array tid (xs : list value) :
  insert_sections tid (VArr xs) = for_each xs (insert_each tid).
Proof. reflexivity. Qed.

Lemma insert_sections_other tid (v : value) :
  isArray v = false → insert_sections tid v = ret tt.
Proof. unfold insert_sections. intros ->. by rewrite andb_false_r. Qed.

Ltac wrong_status Hrun Hst :=
  injection Hrun as <- <-; simpl in Hst; discriminate Hst.

(** C1. A successful [PUT /api/treinos/:id] whose body carries the array
    [xs] as [secoes] leaves the workout with exactly the rows of the
    submitted elements, in their order, and with none of the sections it had
    before; the sections of the other workouts stay in place in front of
    them. *)
Theorem put_replaces_sections (id : string) (body : value) (xs : list value)
    (env : Env) (s s' : Store) (r : Response) :
  wf_store s →
  member body "secoes" = Some (VArr xs) →
  serve (put_treino id body) env s = (s', r) →
  status r = 200 →
  ∃ z new,
    int4in id = Some z ∧
    (∃ row, found id s row) ∧
    secoes_of z s' = new ∧
    length new = length xs ∧
    Forall2 (submitted (Some z)) xs new ∧
    (∀ old, old ∈ secoes_of z s → old ∉ secoes s') ∧
    secoes s' = filter (λ r, Secao.treino_id r ≠ Some z) (secoes s) ++ new.
Proof.
  intros WF Hsec Hrun H200. rewrite put_treino_run in Hrun.
  destruct (member body "data"); [|wrong_status Hrun H200].
  destruct (fault env 0%nat); [wrong_status Hrun H200|].
  destruct (update_treino _ _ _ _ _ s) as [[s1 [|row rows]]|] eqn:U;
    [wrong_status Hrun H200| |wrong_status Hrun H200].
  destruct (fault env 1%nat); [wrong_status Hrun H200|].
  apply update_treino_inv in U as (d & z & Hd & Hz & Hs1 & Hrows).
  destruct (delete_secoes _ _ s1) as [[s2 u]|] eqn:D;
    [|wrong_status Hrun H200].
  apply (delete_secoes_inv id _ z) in D; [|done].
  rewrite (field_member _ _ _ Hsec) in Hrun.
  rewrite insert_sections_array in Hrun.
  destruct (for_each _ _ _ _) as [w [[]|e]] eqn:L; [|wrong_status Hrun H200].
  apply (for_each_insert _ (Some z)) in L;
    [|by rewrite int_param_str, Hz].
  destruct L as (new & Hdb & Hids & Hall & Hlen). cbn [db] in *.
  injection Hrun as <- <-. rewrite Hlen, firstn_all in Hall.
  assert (Hkey := submitted_key _ _ _ Hall).
  rewrite Hdb, D, Hs1. cbn [treinos secoes treinos_seq secoes_seq].
  exists z, new. split_and!; try done.
  - assert (Hrow : row ∈ row :: rows) by apply list_elem_of_here.
    rewrite Hrows in Hrow. apply list_elem_of_fmap in Hrow as (r0 & _ & Hr0).
    apply list_elem_of_filter in Hr0 as [Hid Hin].
    exists r0. split; [done|]. by rewrite Hid.
  - unfold secoes_of. cbn [secoes]. rewrite filter_app.
    rewrite (filter_none _ (filter _ _)), (filter_all _ new); [done..|].
    apply Forall_forall. intros x Hx.
    apply list_elem_of_filter in Hx as [Hx _]. done.
  - intros old Hold. apply list_elem_of_filter in Hold as [Hk Hin].
    rewrite elem_of_app. intros [Hkept|Hnew].
    + apply list_elem_of_filter in Hkept as [Hne _]. done.
    + apply (list_elem_of_fmap_2 Secao.id) in Hnew.
      rewrite Hids in Hnew. apply elem_of_seqZ in Hnew.
      rewrite D, Hs1 in Hnew. cbn [secoes_seq] in Hnew.
      pose proof (wf_secao_seq s WF) as Hseq.
      rewrite Forall_forall in Hseq. specialize (Hseq old Hin). lia.
Qed.

Lemma update_treino_none data dia foco (id : string) (t : Z) s :
  update_treino data dia foco (VStr id) t s = None →
  date_param data = None ∨ int4in id = None.
Proof.
  unfold update_treino. rewrite int_param_str.
  destruct (date_param data); [|by left].
  destruct (int4in id); [done|by right].
Qed.

Lemma updated_miss d dia foco (t z : Z) (l : list Treino.t) :
  Forall (λ r, Treino.id r ≠ z) l → updated d dia foco t z <$> l = l.
Proof.
  induction 1 as [|r l Hr _ IH]; [done|]. rewrite fmap_cons, IH. f_equal.
  unfold updated. by apply Z.eqb_neq in Hr as ->.
Qed.

Lemma store_eta (s : Store) :
  mkStore (treinos s) (secoes s) (treinos_seq s) (secoes_seq s) = s.
Proof. by destruct s. Qed.

(** C2. A [PUT /api/treinos/:id] whose id names no workout row changes
    nothing in the store, sections included; it answers 404 with the
    not-found error whenever the store answers the update, and 500
    otherwise. *)
Theorem put_unknown_id (id : string) (body : value) (env : Env) (s : Store) :
  (∀ row, ¬ found id s row) →
  ∃ r, serve (put_treino id body) env s = (s, r) ∧
    (status r = 404 ∨ status r = 500) ∧
    (status r = 404 ↔
       member body "data" ≠ None ∧ fault env 0%nat = false ∧
       is_Some (date_param (field body "data")) ∧ is_Some (int4in id)) ∧
    (status r = 404 → json r = JError "Treino not found").
Proof.
  intros Hno. rewrite put_treino_run.
  destruct (member body "data") as [data|];
    [|eexists; split; [done|]; simpl; naive_solver].
  destruct (fault env 0%nat);
    [eexists; split; [done|]; simpl; naive_solver|].
  destruct (update_treino _ _ _ _ _ s) as [[s1 [|row rows]]|] eqn:U.
  - apply update_treino_inv in U as (d & z & Hd & Hz & -> & Hrows).
    rewrite updated_miss, store_eta.
    + eexists; split; [done|]. simpl. rewrite Hd, Hz. naive_solver.
    + apply Forall_forall. intros r0 Hin Hid. apply (Hno r0).
      split; [done|]. by rewrite Hid.
  - apply update_treino_inv in U as (d & z & Hd & Hz & _ & Hrows).
    assert (Hrow : row ∈ row :: rows) by apply list_elem_of_here.
    rewrite Hrows in Hrow. apply list_elem_of_fmap in Hrow as (r0 & _ & Hr0).
    apply list_elem_of_filter in Hr0 as [Hid Hin].
    destruct (Hno r0). split; [done|]. by rewrite Hid.
  - apply update_treino_none in U.
    eexists; split; [done|]. simpl. split; [by right|]. split; [|done].
    split; [done|]. intros (_ & _ & [? Hd] & [? Hz]). naive_solver.
Qed.

(** *** The readers and the delete handler, statement by statement *)

Lemma get_treino_run (id : string) (env : Env) (s : Store) :
  serve (get_treino id) env s =
    (s, if fault env 0%nat then failed "Failed to fetch treino"
        else match int4in id with
             | None => failed "Failed to fetch treino"
             | Some z =>
               match filter (λ r, Treino.id r = z) (treinos s) with
               | [] => mkResponse 404 (JError "Treino not found")
               | row :: _ => mkResponse 200 (JTreino row)
               end
             end).
Proof.
  unfold serve, get_treino, try_catch, bind, pool_query, select_treino.
  cbn [issued db]. destruct (fault env 0%nat); [done|].
  rewrite int_param_str. destruct (int4in id) as [z|]; [|done]. simpl.
  replace (filter (λ r, (Treino.id r =? z) = true) (treinos s))
    with (filter (λ r, Treino.id r = z) (treinos s))
    by (apply list_filter_iff; intros r; by rewrite Z.eqb_eq).
  by destruct (filter _ (treinos s)).
Qed.

Lemma get_secoes_run (id : string) (env : Env) (s : Store) :
  serve (get_secoes id) env s =
    (s, if fault env 0%nat then failed "Failed to fetch sections"
        else match int4in id with
             | None => failed "Failed to fetch sections"
             | Some z =>
               mkResponse 200 (JSecoes (merge_sort by_ordem (secoes_of z s)))
             end).
Proof.
  unfold serve, get_secoes, try_catch, bind, pool_query, select_secoes.
  cbn [issued db]. destruct (fault env 0%nat); [done|].
  rewrite int_param_str. destruct (int4in id) as [z|]; [|done]. simpl.
  change (filter _ (secoes s))
    with (filter (λ r, sql_eq (Secao.treino_id r) (Some z) = true) (secoes s)).
  by rewrite secoes_where.
Qed.

Lemma delete_treino_inv (id : string) (t : Z) s1 s2 rows :
  delete_treino (VStr id) t s1 = Some (s2, rows) →
  ∃ z, int4in id = Some z ∧
    s2 = mkStore (filter (λ r, Treino.id r ≠ z) (treinos s1)) (secoes s1)
           (treinos_seq s1) (secoes_seq s1) ∧
    rows = filter (λ r, Treino.id r = z) (treinos s1).
Proof.
  unfold delete_treino. rewrite int_param_str.
  destruct (int4in id) as [z|]; [|done]. simpl. intros [= <- <-].
  exists z. split_and!; [done| |].
  - f_equal. apply list_filter_iff. intros r. apply Z.eqb_neq.
  - apply list_filter_iff. intros r. apply Z.eqb_eq.
Qed.

Lemma delete_secoes_none (id : string) (t : Z) s :
  delete_secoes (VStr id) t s = None ↔ int4in id = None.
Proof.
  unfold delete_secoes. rewrite int_param_str.
  by destruct (int4in id).
Qed.

Lemma delete_treino_none (id : string) (t : Z) s :
  delete_treino (VStr id) t s = None ↔ int4in id = None.
Proof.
  unfold delete_treino. rewrite int_param_str.
  by destruct (int4in id).
Qed.

Lemma delete_treino_run (id : string) (env : Env) (s : Store) :
  serve (delete_treino_handler id) env s =
    if fault env 0%nat then (s, failed "Failed to delete treino")
    else
      match delete_secoes (VStr id) (now env 0%nat) s with
      | None => (s, failed "Failed to delete treino")
      | Some (s1, _) =>
        if fault env 1%nat then (s1, failed "Failed to delete treino")
        else
          match delete_treino (VStr id) (now env 1%nat) s1 with
          | None => (s1, failed "Failed to delete treino")
          | Some (s2, []) => (s2, mkResponse 404 (JError "Treino not found"))
          | Some (s2, _ :: _) =>
            (s2, mkResponse 200 (JMessage "Treino deleted successfully"))
          end
      end.
Proof.
  unfold serve, delete_treino_handler, try_catch, bind, pool_query, reply, ret.
  cbn [issued db]. destruct (fault env 0%nat); [done|].
  destruct (delete_secoes _ _ s) as [[s1 []]|]; [|done].
  cbn [issued db]. destruct (fault env 1%nat); [done|].
  by destruct (delete_treino _ _ s1) as [[s2 [|row rows]]|].
Qed.

Lemma secoes_of_deleted (z : Z) (ts : list Treino.t) (l : list Secao.t) a b :
  secoes_of z (mkStore ts (filter (λ r, Secao.treino_id r ≠ Some z) l) a b)
  = [].
Proof.
  unfold secoes_of. cbn [secoes]. apply filter_none, Forall_forall.
  intros x Hx. by apply list_elem_of_filter in Hx as [Hx _].
Qed.

(** C3. [DELETE /api/treinos/:id] first deletes the sections of the id,
    whether or not a workout has it, then the workout row.  When the store
    answers both statements the response is 404 if no workout row matched
    and 200 with the confirmation otherwise; after a 200 the workout is
    gone, [GET /api/treinos/:id] answers 404 and
    [GET /api/treinos/:id/secoes] answers the empty array. *)
Theorem delete_removes_workout (id : string) (env : Env) (s : Store) :
  ∃ s' r, serve (delete_treino_handler id) env s = (s', r) ∧
    (status r = 500 ↔
       fault env 0%nat = true ∨ int4in id = None ∨ fault env 1%nat = true) ∧
    (∀ z, fault env 0%nat = false → int4in id = Some z →
       secoes s' = filter (λ r, Secao.treino_id r ≠ Some z) (secoes s) ∧
       secoes_of z s' = [] ∧
       (fault env 1%nat = false →
          treinos s' = filter (λ r, Treino.id r ≠ z) (treinos s) ∧
          ((∀ row, ¬ found id s row) →
             r = mkResponse 404 (JError "Treino not found")) ∧
          ((∃ row, found id s row) →
             r = mkResponse 200 (JMessage "Treino deleted successfully") ∧
             ∀ env', fault env' 0%nat = false →
               serve (get_treino id) env' s'
                 = (s', mkResponse 404 (JError "Treino not found")) ∧
               serve (get_secoes id) env' s'
                 = (s', mkResponse 200 (JSecoes []))))).
Proof.
  rewrite delete_treino_run.
  destruct (fault env 0%nat) eqn:F0.
  { do 2 eexists; split; [done|]. simpl. split; [tauto|]. discriminate. }
  destruct (delete_secoes _ _ s) as [[s1 u]|] eqn:D1.
  2: { apply delete_secoes_none in D1.
       do 2 eexists; split; [done|]. simpl. split; [tauto|]. congruence. }
  assert (D1' := D1).
  unfold delete_secoes in D1'. rewrite int_param_str in D1'.
  destruct (int4in id) as [z|] eqn:K; [|done]. clear D1'.
  apply (delete_secoes_inv id _ z) in D1; [|done]. subst s1.
  destruct (fault env 1%nat) eqn:F1.
  { do 2 eexists; split; [done|]. simpl. split; [tauto|].
    intros z' _ [= <-]. split; [done|]. split; [|done].
    apply secoes_of_deleted. }
  destruct (delete_treino _ _ _) as [[s2 rows]|] eqn:D2.
  2: { apply delete_treino_none in D2. congruence. }
  apply delete_treino_inv in D2 as (z' & Hz' & -> & Hrows).
  rewrite K in Hz'. injection Hz' as <-. cbn [treinos secoes] in Hrows.
  destruct rows as [|row rows].
  - do 2 eexists; split; [done|]. simpl.
    split; [split; [discriminate|intros [|[|]]; discriminate]|].
    intros z' _ [= <-]. split; [done|]. split; [apply secoes_of_deleted|].
    intros _. split; [done|]. split; [done|].
    intros [row [Hin Hid]]. exfalso.
    assert (Hr : row ∈ filter (λ r, Treino.id r = z) (treinos s)).
    { apply list_elem_of_filter. split; [congruence|done]. }
    rewrite <- Hrows in Hr. by apply elem_of_nil in Hr.
  - do 2 eexists; split; [done|]. simpl.
    split; [split; [discriminate|intros [|[|]]; discriminate]|].
    intros z' _ [= <-]. split; [done|]. split; [apply secoes_of_deleted|].
    intros _. split; [done|]. split.
    + intros Hno. exfalso.
      assert (Hr : row ∈ row :: rows) by apply list_elem_of_here.
      rewrite Hrows in Hr. apply list_elem_of_filter in Hr as [Hid Hin].
      apply (Hno row). split; [done|]. by rewrite Hid.
    + intros _. split; [done|]. intros env' F.
      rewrite get_treino_run, get_secoes_run, F, K. cbn [treinos].
      rewrite secoes_of_deleted. split; [|done].
      rewrite (filter_none _ (filter _ _)); [done|].
      apply Forall_forall. intros x Hx.
      by apply list_elem_of_filter in Hx as [Hx _].
Qed.

(** *** The create handler, statement by statement *)

Lemma insert_sections_elements tid (v : value) :
  insert_sections tid v = for_each (elements v) (insert_each tid).
Proof.
  unfold insert_sections. destruct v; simpl; by rewrite ?andb_false_r.
Qed.

Lemma insert_treino_inv data dia foco (t : Z) s s1 rows :
  insert_treino data dia foco t s = Some (s1, rows) →
  ∃ d, date_param data = Some d ∧
    let row := created d (text_param dia) (text_param foco) t s in
    s1 = mkStore (treinos s ++ [row]) (secoes s)
           (treinos_seq s + 1) (secoes_seq s) ∧
    rows = [row].
Proof.
  unfold insert_treino. destruct (date_param data) as [d|]; [|done]. simpl.
  intros [= <- <-]. by exists d.
Qed.

Lemma post_treino_run (body : value) (env : Env) (s : Store) :
  serve (post_treino body) env s =
    match member body "data" with
    | None => (s, failed "Failed to create treino")
    | Some _ =>
      if fault env 0%nat then (s, failed "Failed to create treino")
      else
        match insert_treino (field body "data") (field body "dia_semana")
                (field body "foco_tecnico") (now env 0%nat) s with
        | None => (s, failed "Failed to create treino")
        | Some (s1, []) => (s1, failed "Failed to create treino")
        | Some (s1, row :: _) =>
          match for_each (elements (field body "secoes"))
                  (insert_each (VNum (Treino.id row))) env (mkWorld s1 1) with
          | (w, Ok _) => (db w, mkResponse 201 (JTreino row))
          | (w, Throw _) => (db w, failed "Failed to create treino")
          end
        end
    end.
Proof.
  unfold serve, post_treino, try_catch, bind, prop, field.
  destruct (member body "data") as [data|] eqn:Hd; [|done].
  assert (Hb : member body "data" ≠ None) by congruence.
  rewrite !(member_field body "data") by done. cbn [default].
  unfold pool_query, reply, ret, throw. cbn [issued db].
  destruct (fault env 0%nat); [done|].
  destruct (insert_treino _ _ _ _ s) as [[s1 [|row rows]]|]; try done.
  rewrite insert_sections_elements.
  by destruct (for_each _ _ env _) as [w [[]|e]].
Qed.

(** C4. For a valid payload, when the store fails no statement,
    [POST /api/treinos] creates the workout row under the next id of the
    sequence with both timestamps set, then one section row per element of
    [secoes] (none when it is not an array) in input order, each carrying
    that id, and answers 201 with the workout row alone; a following
    [GET /api/treinos/:id] for that id answers 200 with the same row, whose
    fields are the submitted values. *)
Theorem post_creates_workout (body : value) (d : option Z) (env : Env)
    (s : Store) :
  wf_store s →
  member body "data" ≠ None →
  date_param (field body "data") = Some d →
  Forall acceptable (elements (field body "secoes")) →
  (∀ k, (k ≤ length (elements (field body "secoes")))%nat →
        fault env k = false) →
  ∃ s' row new,
    serve (post_treino body) env s = (s', mkResponse 201 (JTreino row)) ∧
    row = Treino.mk (treinos_seq s) d
            (text_param (field body "dia_semana"))
            (text_param (field body "foco_tecnico"))
            (Some (now env 0%nat)) (Some (now env 0%nat)) ∧
    (∀ x, field body "dia_semana" = VStr x → Treino.dia_semana row = Some x) ∧
    (∀ x, field body "foco_tecnico" = VStr x →
          Treino.foco_tecnico row = Some x) ∧
    is_Some (Treino.criado_em row) ∧ is_Some (Treino.atualizado_em row) ∧
    treinos s' = treinos s ++ [row] ∧
    secoes s' = secoes s ++ new ∧
    Forall2 (submitted (Some (Treino.id row)))
      (elements (field body "secoes")) new ∧
    (∀ id env', int4in id = Some (Treino.id row) → fault env' 0%nat = false →
       serve (get_treino id) env' s' = (s', mkResponse 200 (JTreino row))).
Proof.
  intros WF Hb Hd Hacc Hf. rewrite post_treino_run.
  destruct (member body "data"); [|done].
  rewrite (Hf 0%nat) by lia.
  destruct (insert_treino _ _ _ _ s) as [[s1 rows]|] eqn:I.
  2: { unfold insert_treino in I. by rewrite Hd in I. }
  apply insert_treino_inv in I as (d' & Hd' & Hs1 & ->).
  rewrite Hd in Hd'. injection Hd' as <-.
  change (Treino.id (created _ _ _ _ s)) with (treinos_seq s).
  destruct (for_each_insert_ok (VNum (treinos_seq s)) (Some (treinos_seq s))
              (elements (field body "secoes")) env (mkWorld s1 1))
    as (w & L & _); [done|done|..].
  { intros i Hi. cbn [issued]. apply Hf. lia. }
  rewrite L.
  apply (for_each_insert _ (Some (treinos_seq s))) in L; [|done].
  destruct L as (new & Hdb & _ & Hall & Hlen). cbn [db] in Hdb.
  rewrite Hlen, firstn_all in Hall.
  eexists (db w), _, new. rewrite Hdb, Hs1.
  cbn [treinos secoes treinos_seq secoes_seq].
  unfold created. cbn [Treino.id Treino.dia_semana Treino.foco_tecnico
                        Treino.criado_em Treino.atualizado_em].
  split_and!; try done; try (intros x ->; done); try (by eexists).
  intros id env' Hid F. rewrite get_treino_run, F, Hid.
  cbn [treinos Treino.id]. rewrite filter_app.
  rewrite (filter_none _ (treinos s)).
  - cbn [app]. by rewrite filter_cons_True.
  - pose proof (wf_treino_seq s WF) as Hseq.
    eapply Forall_impl; [exact Hseq|]. intros r Hr. simpl in *. lia.
Qed.

Lemma insert_each_fail tid (k : option Z) (x : value) env w :
  int_param tid = Some k →
  ¬ acceptable x ∨ fault env (issued w) = true →
  ∃ e n, insert_each tid x env w = (mkWorld (db w) n, Throw e).
Proof.
  intros K Hbad. rewrite (insert_each_run tid k) by done.
  destruct (secao_params x); [|exists TypeError, (issued w); by destruct w].
  destruct (fault env (issued w)); [by eexists _, _|].
  destruct (secao_row _ _ _ x) as [row|] eqn:R; [|by eexists _, _].
  destruct Hbad as [Hbad|]; [|done]. destruct Hbad.
  eapply acceptable_row. by rewrite R.
Qed.

(** C8. When the workout insert of [POST /api/treinos] succeeds and the
    insert of a later section fails (the element is not acceptable to the
    store or the store fails the statement), the response is 500 with the
    generic error, and the workout row and the sections inserted before the
    failure are still in the store: nothing is rolled back. *)
Theorem post_keeps_partial_insert (body : value) (d : option Z)
    (pre : list value) (x : value) (post : list value) (env : Env)
    (s : Store) :
  member body "data" ≠ None →
  fault env 0%nat = false →
  date_param (field body "data") = Some d →
  elements (field body "secoes") = pre ++ x :: post →
  Forall acceptable pre →
  (∀ i, (i < length pre)%nat → fault env (S i) = false) →
  ¬ acceptable x ∨ fault env (S (length pre)) = true →
  ∃ s' new,
    serve (post_treino body) env s
      = (s', mkResponse 500 (JError "Failed to create treino")) ∧
    treinos s' = treinos s ++
      [created d (text_param (field body "dia_semana"))
         (text_param (field body "foco_tecnico")) (now env 0%nat) s] ∧
    secoes s' = secoes s ++ new ∧
    Forall2 (submitted (Some (treinos_seq s))) pre new.
Proof.
  intros Hb F0 Hd Hel Hacc Hf Hbad. rewrite post_treino_run.
  destruct (member body "data"); [|done]. rewrite F0.
  destruct (insert_treino _ _ _ _ s) as [[s1 rows]|] eqn:I.
  2: { unfold insert_treino in I. by rewrite Hd in I. }
  apply insert_treino_inv in I as (d' & Hd' & Hs1 & ->).
  rewrite Hd in Hd'. injection Hd' as <-.
  change (Treino.id (created _ _ _ _ s)) with (treinos_seq s).
  rewrite Hel, for_each_app.
  destruct (for_each_insert_ok (VNum (treinos_seq s)) (Some (treinos_seq s))
              pre env (mkWorld s1 1)) as (w & L & Hn); [done|done|..].
  { intros i Hi. cbn [issued]. by apply Hf. }
  rewrite L. cbn [for_each]. unfold bind. cbn [issued] in Hn.
  destruct (insert_each_fail (VNum (treinos_seq s)) (Some (treinos_seq s))
              x env w) as (e & n & ->); [done| |].
  { by rewrite Hn. }
  apply (for_each_insert _ (Some (treinos_seq s))) in L; [|done].
  destruct L as (new & Hdb & _ & Hall & Hlen). cbn [db] in *.
  rewrite Hlen, firstn_all in Hall.
  exists (db w), new. rewrite Hdb, Hs1. by cbn [treinos secoes].
Qed.

Lemma updated_id d dia foco (t z : Z) (r : Treino.t) :
  Treino.id (updated d dia foco t z r) = Treino.id r.
Proof. unfold updated. by destruct (Treino.id r =? z). Qed.

Lemma elements_other (v : value) : isArray v = false → elements v = [].
Proof. by destruct v. Qed.

(** C9. A [secoes] that is not an array (absent, a string, a number, an
    object, ...) does not make the writers fail: the section loop is
    skipped.  When the store answers its statements, [POST /api/treinos]
    answers 201 with the new workout row and adds no section, and
    [PUT /api/treinos/:id] on an existing workout answers 200 with the
    updated row, deletes the workout's sections and adds none. *)
Theorem non_array_secoes_is_skipped (body : value) (d : option Z) (env : Env)
    (s : Store) :
  member body "data" ≠ None →
  isArray (field body "secoes") = false →
  date_param (field body "data") = Some d →
  fault env 0%nat = false →
  (∃ s' row,
     serve (post_treino body) env s = (s', mkResponse 201 (JTreino row)) ∧
     treinos s' = treinos s ++ [row] ∧
     secoes s' = secoes s) ∧
  (∀ id row0, found id s row0 → fault env 1%nat = false →
     ∃ s' row,
       serve (put_treino id body) env s = (s', mkResponse 200 (JTreino row)) ∧
       Treino.id row = Treino.id row0 ∧
       row ∈ treinos s' ∧
       secoes s' =
         filter (λ r, Secao.treino_id r ≠ Some (Treino.id row0)) (secoes s)).
Proof.
  intros Hb Harr Hd F0. split.
  - rewrite post_treino_run. destruct (member body "data"); [|done].
    rewrite F0. destruct (insert_treino _ _ _ _ s) as [[s1 rows]|] eqn:I.
    2: { unfold insert_treino in I. by rewrite Hd in I. }
    apply insert_treino_inv in I as (d' & _ & Hs1 & ->).
    rewrite (elements_other _ Harr). cbn [for_each]. unfold ret. cbn [db].
    eexists _, _. split; [done|]. by rewrite Hs1.
  - intros id row0 [Hin Hz] F1. rewrite put_treino_run.
    destruct (member body "data"); [|done]. rewrite F0.
    destruct (update_treino _ _ _ _ _ s) as [[s1 rows]|] eqn:U.
    2: { apply update_treino_none in U as [U|U]; congruence. }
    apply update_treino_inv in U as (d' & z & _ & Hz' & Hs1 & Hrows).
    rewrite Hz in Hz'. injection Hz' as <-.
    assert (H0 : row0 ∈ filter (λ r, Treino.id r = Treino.id row0) (treinos s))
      by (by apply list_elem_of_filter).
    destruct rows as [|row rows].
    { symmetry in Hrows. apply fmap_nil_inv in Hrows. rewrite Hrows in H0.
      by apply elem_of_nil in H0. }
    assert (Hrow : row ∈ row :: rows) by apply list_elem_of_here.
    rewrite Hrows in Hrow. apply list_elem_of_fmap in Hrow as (r0 & Hr & Hr0).
    apply list_elem_of_filter in Hr0 as [Hid Hin0].
    rewrite F1. destruct (delete_secoes _ _ s1) as [[s2 u]|] eqn:D.
    2: { apply delete_secoes_none in D. congruence. }
    apply (delete_secoes_inv id _ (Treino.id row0)) in D; [|done].
    rewrite insert_sections_other by done. unfold ret. cbn [db].
    eexists _, _. split; [done|]. rewrite D, Hs1. cbn [treinos secoes].
    split_and!; [|rewrite Hr; by apply list_elem_of_fmap_2|done].
    by rewrite Hr, updated_id.
Qed.

(** *** The rows of the other workouts *)

Lemma same_off_refl (k : option Z) (s : Store) : same_off k s s.
Proof. done. Qed.

Lemma same_off_trans (k : option Z) (s1 s2 s3 : Store) :
  same_off k s1 s2 → same_off k s2 s3 → same_off k s1 s3.
Proof. intros [A1 B1] [A2 B2]. split; congruence. Qed.

Lemma update_treino_frame data dia foco (id : string) (t : Z) s s1 rows :
  update_treino data dia foco (VStr id) t s = Some (s1, rows) →
  same_off (int4in id) s s1.
Proof.
  intros U. apply update_treino_inv in U as (d & z & _ & -> & -> & _).
  split; [|done]. unfold treinos_off. cbn [treinos].
  induction (treinos s) as [|r l IH]; [done|]. rewrite fmap_cons.
  unfold updated at 1. destruct (Z.eqb_spec (Treino.id r) z) as [E|E].
  - rewrite !filter_cons_False; [done|simpl; congruence..].
  - rewrite !filter_cons_True; [by f_equal|congruence..].
Qed.

Lemma delete_secoes_frame (id : string) (t : Z) s s2 u :
  delete_secoes (VStr id) t s = Some (s2, u) → same_off (int4in id) s s2.
Proof.
  intros D. destruct (int4in id) as [z|] eqn:K.
  2: { apply eq_None_ne_Some_1 with (x := (s2, u)) in D; [done|].
       by apply delete_secoes_none. }
  apply (delete_secoes_inv id _ z) in D; [|done]. subst s2.
  split; [done|]. unfold secoes_off. cbn [secoes].
  rewrite list_filter_filter. apply list_filter_iff. naive_solver.
Qed.

Lemma delete_treino_frame (id : string) (t : Z) s s2 rows :
  delete_treino (VStr id) t s = Some (s2, rows) → same_off (int4in id) s s2.
Proof.
  intros D. apply delete_treino_inv in D as (z & -> & -> & _).
  split; [|done]. unfold treinos_off. cbn [treinos].
  rewrite list_filter_filter. apply list_filter_iff. naive_solver.
Qed.

Lemma insert_sections_frame (id : string) (z : Z) (v : value) env w w' o :
  int4in id = Some z →
  insert_sections (VStr id) v env w = (w', o) →
  same_off (Some z) (db w) (db w').
Proof.
  intros K L. rewrite insert_sections_elements in L.
  apply (for_each_insert _ (Some z)) in L; [|by rewrite int_param_str, K].
  destruct L as (new & -> & _ & Hall & _). apply submitted_key in Hall.
  split; [done|]. unfold secoes_off. cbn [secoes].
  rewrite filter_app, (filter_none _ new), app_nil_r; [done|].
  eapply Forall_impl; [exact Hall|]. naive_solver.
Qed.

(** C10. [PUT] and [DELETE] on [/api/treinos/:id] leave every workout row
    whose id is not [:id] and every section row whose [treino_id] is not
    [:id] as they were, whatever the outcome of the request, which is 200,
    404 or 500. *)
Theorem other_workouts_untouched (id : string) (body : value) (env : Env)
    (s : Store) :
  (∃ s' r, serve (put_treino id body) env s = (s', r) ∧
     same_off (int4in id) s s' ∧
     (status r = 200 ∨ status r = 404 ∨ status r = 500)) ∧
  (∃ s' r, serve (delete_treino_handler id) env s = (s', r) ∧
     same_off (int4in id) s s' ∧
     (status r = 200 ∨ status r = 404 ∨ status r = 500)).
Proof.
  split.
  - rewrite put_treino_run.
    destruct (member body "data");
      [|eexists _, _; split_and!; [done|apply same_off_refl|simpl; auto]].
    destruct (fault env 0%nat);
      [eexists _, _; split_and!; [done|apply same_off_refl|simpl; auto]|].
    destruct (update_treino _ _ _ _ _ s) as [[s1 rows]|] eqn:U;
      [|eexists _, _; split_and!; [done|apply same_off_refl|simpl; auto]].
    assert (U' := U). apply update_treino_frame in U.
    apply update_treino_inv in U' as (_ & z & _ & K & _).
    destruct rows as [|row rows];
      [eexists _, _; split_and!; [done|done|simpl; auto]|].
    destruct (fault env 1%nat);
      [eexists _, _; split_and!; [done|done|simpl; auto]|].
    destruct (delete_secoes _ _ s1) as [[s2 u]|] eqn:D;
      [|eexists _, _; split_and!; [done|done|simpl; auto]].
    apply delete_secoes_frame in D.
    destruct (insert_sections _ _ env _) as [w o] eqn:L.
    apply (insert_sections_frame id z) in L; [|done]. cbn [db] in L.
    rewrite <- K in L.
    assert (same_off (int4in id) s (db w))
      by eauto using same_off_trans.
    destruct o; eexists _, _; split_and!; try done; simpl; auto.
  - rewrite delete_treino_run.
    destruct (fault env 0%nat);
      [eexists _, _; split_and!; [done|apply same_off_refl|simpl; auto]|].
    destruct (delete_secoes _ _ s) as [[s1 u]|] eqn:D;
      [|eexists _, _; split_and!; [done|apply same_off_refl|simpl; auto]].
    apply delete_secoes_frame in D.
    destruct (fault env 1%nat);
      [eexists _, _; split_and!; [done|done|simpl; auto]|].
    destruct (delete_treino _ _ s1) as [[s2 rows]|] eqn:D2;
      [|eexists _, _; split_and!; [done|done|simpl; auto]].
    apply delete_treino_frame in D2.
    assert (same_off (int4in id) s s2) by eauto using same_off_trans.
    destruct rows; eexists _, _; split_and!; try done; simpl; auto.
Qed.

(** *** The primary keys are an invariant of the service *)

Lemma NoDup_key_filter {A} (key : A → Z) (P : A → Prop)
    `{∀ x, Decision (P x)} (l : list A) :
  NoDup (key <$> l) → NoDup (key <$> filter P l).
Proof.
  induction l as [|a l IH]; [done|]. rewrite fmap_cons.
  intros [Ha ND]%NoDup_cons. rewrite filter_cons.
  destruct (decide (P a)); [|auto]. rewrite fmap_cons.
  apply NoDup_cons. split; [|auto]. intros Hin. apply Ha.
  apply list_elem_of_fmap in Hin as (x & -> & Hx).
  apply list_elem_of_filter in Hx as [_ Hx]. by apply list_elem_of_fmap_2.
Qed.

Lemma Forall_filter_keep {A} (Q P : A → Prop) `{∀ x, Decision (P x)}
    (l : list A) :
  Forall Q l → Forall Q (filter P l).
Proof.
  rewrite !Forall_forall. intros HQ x Hx.
  apply list_elem_of_filter in Hx as [_ Hx]. auto.
Qed.

Lemma keys_app_fresh {A} (key : A → Z) (l new : list A) (seq : Z) :
  NoDup (key <$> l) → Forall (λ r, key r < seq) l →
  key <$> new = seqZ seq (Z.of_nat (length new)) →
  NoDup (key <$> (l ++ new)) ∧
  Forall (λ r, key r < seq + Z.of_nat (length new)) (l ++ new).
Proof.
  intros ND Hlt Hnew. split.
  - rewrite fmap_app. apply NoDup_app. split_and!; [done| |].
    + intros x Hx. rewrite Hnew, elem_of_seqZ.
      apply list_elem_of_fmap in Hx as (r & -> & Hr).
      rewrite Forall_forall in Hlt. specialize (Hlt r Hr). lia.
    + rewrite Hnew. apply NoDup_seqZ.
  - apply Forall_app. split.
    + eapply Forall_impl; [exact Hlt|]. intros r Hr. simpl in *. lia.
    + apply Forall_forall. intros r Hr.
      apply (list_elem_of_fmap_2 key) in Hr.
      rewrite Hnew in Hr. apply elem_of_seqZ in Hr. lia.
Qed.

Lemma wf_insert_treino data dia foco (t : Z) s s1 rows :
  wf_store s → insert_treino data dia foco t s = Some (s1, rows) →
  wf_store s1.
Proof.
  intros [N1 F1 N2 F2] I. apply insert_treino_inv in I as (d & _ & -> & _).
  destruct (keys_app_fresh Treino.id (treinos s)
              [created d (text_param dia) (text_param foco) t s]
              (treinos_seq s)) as [N F]; [done|done|done|].
  by split.
Qed.

Lemma wf_update_treino data dia foco (id : string) (t : Z) s s1 rows :
  wf_store s → update_treino data dia foco (VStr id) t s = Some (s1, rows) →
  wf_store s1.
Proof.
  intros [N1 F1 N2 F2] U.
  apply update_treino_inv in U as (d & z & _ & _ & -> & _).
  split; cbn [treinos secoes treinos_seq secoes_seq]; try done.
  - rewrite <- list_fmap_compose.
    erewrite list_fmap_ext; [exact N1|]. intros i r _. apply updated_id.
  - apply Forall_fmap. eapply Forall_impl; [exact F1|].
    intros r Hr. simpl. by rewrite updated_id.
Qed.

Lemma wf_delete_secoes (id : string) (t : Z) s s1 u :
  wf_store s → delete_secoes (VStr id) t s = Some (s1, u) → wf_store s1.
Proof.
  intros [N1 F1 N2 F2]. unfold delete_secoes.
  destruct (int_param (VStr id)) as [k|]; [|done]. simpl. intros [= <-].
  split; cbn [treinos secoes treinos_seq secoes_seq]; try done.
  - by apply NoDup_key_filter.
  - by apply Forall_filter_keep.
Qed.

Lemma wf_delete_treino (id : string) (t : Z) s s1 rows :
  wf_store s → delete_treino (VStr id) t s = Some (s1, rows) → wf_store s1.
Proof.
  intros [N1 F1 N2 F2]. unfold delete_treino.
  destruct (int_param (VStr id)) as [k|]; [|done]. simpl. intros [= <- _].
  split; cbn [treinos secoes treinos_seq secoes_seq]; try done.
  - by apply NoDup_key_filter.
  - by apply Forall_filter_keep.
Qed.

Lemma wf_for_each_insert tid (k : option Z) (xs : list value) env w w' o :
  int_param tid = Some k →
  for_each xs (insert_each tid) env w = (w', o) →
  wf_store (db w) → wf_store (db w').
Proof.
  intros K L [N1 F1 N2 F2].
  apply (for_each_insert tid k) in L as (new & -> & Hids & _); [|done].
  destruct (keys_app_fresh Secao.id (secoes (db w)) new (secoes_seq (db w)))
    as [N F]; [done..|].
  by split.
Qed.

(** Every handler takes a store with sound primary keys to one with sound
    primary keys, whatever the store fails. *)
Theorem wf_store_invariant (id : string) (body : value) (env : Env)
    (s : Store) :
  wf_store s →
  wf_store (fst (serve get_treinos env s)) ∧
  wf_store (fst (serve (get_treino id) env s)) ∧
  wf_store (fst (serve (get_secoes id) env s)) ∧
  wf_store (fst (serve (post_treino body) env s)) ∧
  wf_store (fst (serve (put_treino id body) env s)) ∧
  wf_store (fst (serve (delete_treino_handler id) env s)).
Proof.
  intros WF. split_and!.
  - unfold serve, get_treinos, try_catch, bind, pool_query, select_treinos.
    simpl. by destruct (fault env 0%nat).
  - by rewrite get_treino_run.
  - by rewrite get_secoes_run.
  - rewrite post_treino_run. destruct (member body "data"); [|done].
    destruct (fault env 0%nat); [done|].
    destruct (insert_treino _ _ _ _ s) as [[s1 rows]|] eqn:I; [|done].
    assert (WF1 := wf_insert_treino _ _ _ _ _ _ _ WF I).
    apply insert_treino_inv in I as (d & _ & _ & ->).
    destruct (for_each _ _ env _) as [w o] eqn:L.
    apply (wf_for_each_insert _ (Some (treinos_seq s))) in L; [|done|done].
    by destruct o.
  - rewrite put_treino_run. destruct (member body "data"); [|done].
    destruct (fault env 0%nat); [done|].
    destruct (update_treino _ _ _ _ _ s) as [[s1 rows]|] eqn:U; [|done].
    assert (WF1 := wf_update_treino _ _ _ _ _ _ _ _ WF U).
    apply update_treino_inv in U as (_ & z & _ & K & _).
    destruct rows as [|row rows]; [done|].
    destruct (fault env 1%nat); [done|].
    destruct (delete_secoes _ _ s1) as [[s2 u]|] eqn:D; [|done].
    assert (WF2 := wf_delete_secoes _ _ _ _ _ WF1 D).
    rewrite insert_sections_elements.
    destruct (for_each _ _ env _) as [w o] eqn:L.
    apply (wf_for_each_insert _ (Some z)) in L;
      [|by rewrite int_param_str, K|done].
    by destruct o.
  - rewrite delete_treino_run. destruct (fault env 0%nat); [done|].
    destruct (delete_secoes _ _ s) as [[s1 u]|] eqn:D; [|done].
    assert (WF1 := wf_delete_secoes _ _ _ _ _ WF D).
    destruct (fault env 1%nat); [done|].
    destruct (delete_treino _ _ s1) as [[s2 rows]|] eqn:D2; [|done].
    assert (WF2 := wf_delete_treino _ _ _ _ _ WF1 D2).
    by destruct rows.
Qed.

(** *** The foreign key is an invariant of the service *)

Lemma referential_grow (ts ts' : list Treino.t) (l : list Secao.t) a b a' b' :
  (∀ w, w ∈ ts → ∃ w', w' ∈ ts' ∧ Treino.id w' = Treino.id w) →
  referential (mkStore ts l a b) → referential (mkStore ts' l a' b').
Proof.
  intros Hts Ref. unfold referential in *. cbn [treinos secoes] in *.
  eapply Forall_impl; [exact Ref|]. intros r (w & Hw & Hk).
  destruct (Hts w Hw) as (w' & Hw' & Hid). exists w'. by rewrite Hid.
Qed.

Lemma referential_app (z : Z) (s : Store) (new : list Secao.t) a :
  referential s →
  (∃ w, w ∈ treinos s ∧ Treino.id w = z) →
  Forall (λ r, Secao.treino_id r = Some z) new →
  referential (mkStore (treinos s) (secoes s ++ new) (treinos_seq s) a).
Proof.
  intros Ref (w & Hw & Hid) Hnew. unfold referential in *.
  cbn [treinos secoes]. apply Forall_app. split; [done|].
  eapply Forall_impl; [exact Hnew|]. intros r Hr. exists w. by rewrite Hid.
Qed.

Lemma referential_for_each tid (z : Z) (xs : list value) env w w' o :
  int_param tid = Some (Some z) →
  for_each xs (insert_each tid) env w = (w', o) →
  (∃ r, r ∈ treinos (db w) ∧ Treino.id r = z) →
  referential (db w) → referential (db w').
Proof.
  intros K L Hz Ref.
  apply (for_each_insert tid (Some z)) in L as (new & -> & _ & Hall & _);
    [|done].
  apply referential_app with (z := z); [done|done|].
  by apply submitted_key in Hall.
Qed.

(** Every handler takes a store in which each section belongs to a workout
    to one in which each section belongs to a workout, whatever the store
    fails. *)
Theorem referential_invariant (id : string) (body : value) (env : Env)
    (s : Store) :
  referential s →
  referential (fst (serve (post_treino body) env s)) ∧
  referential (fst (serve (put_treino id body) env s)) ∧
  referential (fst (serve (delete_treino_handler id) env s)).
Proof.
  intros Ref. split_and!.
  - rewrite post_treino_run. destruct (member body "data"); [|done].
    destruct (fault env 0%nat); [done|].
    destruct (insert_treino _ _ _ _ s) as [[s1 rows]|] eqn:I; [|done].
    apply insert_treino_inv in I as (d & _ & Hs1 & ->).
    assert (Ref1 : referential s1).
    { rewrite Hs1. rewrite <- (store_eta s) in Ref.
      eapply referential_grow; [|exact Ref]. intros w Hw. exists w.
      split; [|done]. apply elem_of_app. by left. }
    destruct (for_each _ _ env _) as [w o] eqn:L.
    apply (referential_for_each _ (treinos_seq s)) in L;
      [by destruct o|done| |exact Ref1].
    cbn [db]. rewrite Hs1. cbn [treinos]. eexists.
    split; [apply elem_of_app; right; apply list_elem_of_here|done].
  - rewrite put_treino_run. destruct (member body "data"); [|done].
    destruct (fault env 0%nat); [done|].
    destruct (update_treino _ _ _ _ _ s) as [[s1 rows]|] eqn:U; [|done].
    apply update_treino_inv in U as (d & z & _ & K & Hs1 & Hrows).
    assert (Ref1 : referential s1).
    { rewrite Hs1. rewrite <- (store_eta s) in Ref.
      eapply referential_grow; [|exact Ref]. intros w Hw. eexists.
      split; [by apply list_elem_of_fmap_2|]. apply updated_id. }
    destruct rows as [|row rows]; [done|].
    destruct (fault env 1%nat); [done|].
    destruct (delete_secoes _ _ s1) as [[s2 u]|] eqn:D; [|done].
    apply (delete_secoes_inv id _ z) in D; [|done].
    assert (Ref2 : referential s2).
    { rewrite D. unfold referential in *. cbn [treinos secoes].
      by apply Forall_filter_keep. }
    rewrite insert_sections_elements.
    destruct (for_each _ _ env _) as [w o] eqn:L.
    apply (referential_for_each _ z) in L;
      [by destruct o|by rewrite int_param_str, K| |exact Ref2].
    cbn [db]. rewrite D, Hs1. cbn [treinos].
    assert (Hrow : row ∈ row :: rows) by apply list_elem_of_here.
    rewrite Hrows in Hrow. apply list_elem_of_fmap in Hrow as (r0 & _ & Hr0).
    apply list_elem_of_filter in Hr0 as [Hid Hin]. eexists.
    split; [by apply list_elem_of_fmap_2|]. by rewrite updated_id.
  - rewrite delete_treino_run. destruct (fault env 0%nat); [done|].
    destruct (delete_secoes _ _ s) as [[s1 u]|] eqn:D; [|done].
    assert (D' := D). unfold delete_secoes in D'.
    rewrite int_param_str in D'.
    destruct (int4in id) as [z|] eqn:K; [|done]. clear D'.
    apply (delete_secoes_inv id _ z) in D; [|done].
    assert (Ref1 : referential s1).
    { rewrite D. unfold referential in *. cbn [treinos secoes].
      by apply Forall_filter_keep. }
    destruct (fault env 1%nat); [done|].
    destruct (delete_treino _ _ s1) as [[s2 rows]|] eqn:D2; [|done].
    apply delete_treino_inv in D2 as (z' & Hz' & Hs2 & _).
    rewrite K in Hz'. injection Hz' as <-.
    enough (referential s2) by (by destruct rows).
    rewrite Hs2, D. unfold referential in *. cbn [treinos secoes].
    apply Forall_forall. intros r Hr.
    apply list_elem_of_filter in Hr as [Hne Hr].
    rewrite Forall_forall in Ref. destruct (Ref r Hr) as (w & Hw & Hk).
    exists w. split; [|done]. apply list_elem_of_filter. split; [|done].
    intros Hid. apply Hne. by rewrite Hk, Hid.
Qed.

End Properties.

(** ** Worked requests *)

Section Worked.
Import Demo.
#[local] Existing Instance Demo.pg.

Lemma wf_two : wf_store two.
Proof.
  split; refine (bool_decide_unpack _ _); vm_compute; exact I.
Qed.

(** The dates of the spec's example come back most recent first. *)
Example get_treinos_three :
  match json (snd (serve get_treinos calm three)) with
  | JTreinos rows => Treino.data <$> rows
  | _ => []
  end = [Some 20240301; Some 20240201; Some 20240101].
Proof. vm_compute. reflexivity. Qed.

(** A workout created with three sections and updated with one has one. *)
Example put_then_get_secoes :
  let s' := fst (serve (put_treino "1" one_section) calm two) in
  match json (snd (serve (get_secoes "1") calm s')) with
  | JSecoes rows => length rows
  | _ => 0%nat
  end = 1%nat.
Proof. vm_compute. reflexivity. Qed.

(** Sections come back by [ordem], not in the order they were submitted. *)
Example get_secoes_two :
  match json (snd (serve (get_secoes "1") calm two)) with
  | JSecoes rows => Secao.ordem <$> rows
  | _ => []
  end = [Some 1; Some 2; Some 3].
Proof. vm_compute. reflexivity. Qed.

(** After a delete the workout and its sections are gone. *)
Example delete_then_get :
  let run := serve (delete_treino_handler "1") calm two in
  status (snd run) = 200 ∧
  snd (serve (get_treino "1") calm (fst run))
    = mkResponse 404 (JError "Treino not found") ∧
  snd (serve (get_secoes "1") calm (fst run)) = mkResponse 200 (JSecoes []).
Proof. vm_compute. auto. Qed.

(** The store fails the second section insert of a create: the workout and
    the first section stay. *)
Example post_store_failure :
  let run := serve (post_treino broken_section) (failing 2) two in
  status (snd run) = 500 ∧
  length (treinos (fst run)) = 3%nat ∧
  length (secoes (fst run)) = 5%nat.
Proof. vm_compute. auto. Qed.

(** An id that is not an integer makes the store fail the query. *)
Example get_treino_bad_id :
  snd (serve (get_treino "abc") calm two)
    = mkResponse 500 (JError "Failed to fetch treino").
Proof. vm_compute. reflexivity. Qed.

Lemma put_replaces_sections_witness :
  let run := serve (put_treino "1" one_section) calm two in
  status (snd run) = 200 ∧
  ∃ z new,
    int4in "1" = Some z ∧
    (∃ row, found "1" two row) ∧
    secoes_of z (fst run) = new ∧
    length new = 1%nat ∧
    Forall2 (submitted (Some z)) [secao "drill" 15 "gancho" 1] new ∧
    (∀ old, old ∈ secoes_of z two → old ∉ secoes (fst run)) ∧
    secoes (fst run) =
      filter (λ r, Secao.treino_id r ≠ Some z) (secoes two) ++ new.
Proof.
  intros run. split; [vm_compute; reflexivity|].
  apply (put_replaces_sections "1" one_section
           [secao "drill" 15 "gancho" 1] calm two (fst run) (snd run)).
  - exact wf_two.
  - vm_compute. reflexivity.
  - vm_compute. reflexivity.
  - vm_compute. reflexivity.
Defined.

Lemma put_unknown_id_witness :
  (∀ row, ¬ found "7" two row) ∧
  ∃ r, serve (put_treino "7" one_section) calm two = (two, r) ∧
    (status r = 404 ∨ status r = 500) ∧
    (status r = 404 ↔
       member one_section "data" ≠ None ∧ fault calm 0%nat = false ∧
       is_Some (date_param (field one_section "data")) ∧
       is_Some (int4in "7")) ∧
    (status r = 404 → json r = JError "Treino not found").
Proof.
  assert (Hno : ∀ row, ¬ found "7" two row).
  { intros row [Hin Hz]. apply list_elem_of_In in Hin.
    vm_compute in Hin, Hz. destruct Hin as [<-|[<-|[]]]; discriminate Hz. }
  split; [exact Hno|].
  exact (put_unknown_id "7" one_section calm two Hno).
Defined.

Lemma post_creates_workout_witness :
  ∃ s' row new,
    serve (post_treino one_section) calm two
      = (s', mkResponse 201 (JTreino row)) ∧
    row = Treino.mk 3 (Some 20240201) (Some "terca") (Some "meia guarda")
            (Some 1000) (Some 1000) ∧
    treinos s' = treinos two ++ [row] ∧
    secoes s' = secoes two ++ new ∧
    Forall2 (submitted (Some 3)) [secao "drill" 15 "gancho" 1] new ∧
    serve (get_treino "3") calm s' = (s', mkResponse 200 (JTreino row)).
Proof.
  destruct (post_creates_workout one_section (Some 20240201) calm two)
    as (s' & row & new & Hrun & Hrow & _ & _ & _ & _ & Ht & Hs & Hall & Hget).
  - exact wf_two.
  - vm_compute. discriminate.
  - vm_compute. reflexivity.
  - repeat constructor. vm_compute. eexists. reflexivity.
  - intros k _. reflexivity.
  - exists s', row, new. split_and!; try done.
    + by rewrite Hrow in Hall.
    + apply Hget; [by rewrite Hrow|reflexivity].
Defined.

Lemma get_treino_by_id_witness :
  ∃ r, serve (get_treino "2") calm two = (two, r) ∧
    (status r = 500 ↔ fault calm 0%nat = true ∨ int4in "2" = None) ∧
    (status r = 500 → json r = JError "Failed to fetch treino") ∧
    (status r = 404 ↔
       ¬ (fault calm 0%nat = true ∨ int4in "2" = None) ∧
       ∀ row, ¬ found "2" two row) ∧
    (status r = 404 → json r = JError "Treino not found") ∧
    (∀ row, ¬ (fault calm 0%nat = true ∨ int4in "2" = None) →
       found "2" two row → r = mkResponse 200 (JTreino row)).
Proof. exact (get_treino_by_id "2" calm two wf_two). Defined.

Lemma post_keeps_partial_insert_witness :
  ∃ s' new,
    serve (post_treino broken_section) calm two
      = (s', mkResponse 500 (JError "Failed to create treino")) ∧
    treinos s' = treinos two ++
      [created (Some 20240201) (Some "terca") (Some "meia guarda") 1000 two] ∧
    secoes s' = secoes two ++ new ∧
    Forall2 (submitted (Some 3)) [secao "drill" 15 "gancho" 1] new.
Proof.
  apply (post_keeps_partial_insert broken_section (Some 20240201)
           [secao "drill" 15 "gancho" 1] VNull [secao "luta" 20 "rola" 3]
           calm two).
  - vm_compute. discriminate.
  - reflexivity.
  - vm_compute. reflexivity.
  - vm_compute. reflexivity.
  - repeat constructor. vm_compute. eexists. reflexivity.
  - intros i _. reflexivity.
  - left. intros [row Hrow]. vm_compute in Hrow. discriminate Hrow.
Defined.

Lemma non_array_secoes_is_skipped_witness :
  (∃ s' row,
     serve (post_treino text_sections) calm two
       = (s', mkResponse 201 (JTreino row)) ∧
     treinos s' = treinos two ++ [row] ∧
     secoes s' = secoes two) ∧
  (∀ id row0, found id two row0 → fault calm 1%nat = false →
     ∃ s' row,
       serve (put_treino id text_sections) calm two
         = (s', mkResponse 200 (JTreino row)) ∧
       Treino.id row = Treino.id row0 ∧
       row ∈ treinos s' ∧
       secoes s' =
         filter (λ r, Secao.treino_id r ≠ Some (Treino.id row0)) (secoes two)).
Proof.
  apply (non_array_secoes_is_skipped text_sections (Some 20240201) calm two).
  - vm_compute. discriminate.
  - vm_compute. reflexivity.
  - vm_compute. reflexivity.
  - reflexivity.
Defined.

End Worked.

(** ** The routes as a whole *)

Section Routes.
Context {types : PgTypes}.

(** *** No statement after a failed one *)

Lemma quiet_join (env : Env) (a b c : nat) :
  quiet env a b → quiet env b c → quiet env a c.
Proof.
  intros H1 H2 k Ha Hc. destruct (decide (k < b)%nat); [by apply H1|].
  apply H2; lia.
Qed.

Lemma quiet_shrink (env : Env) (a b c : nat) :
  (c ≤ b)%nat → quiet env a b → quiet env a c.
Proof. intros Hcb H1 k Ha Hc. apply H1; lia. Qed.

Lemma careful_ret {A} (a : A) : careful (ret a).
Proof.
  intros env w w' o [= <- <-]. split; [done|]. intros k ? ?. lia.
Qed.

Lemma careful_throw {A} (e : exn) : careful (@throw A e).
Proof.
  intros env w w' o [= <- <-]. split; [done|]. intros k ? ?. lia.
Qed.

Lemma careful_reply (code : Z) (body : payload) : careful (reply code body).
Proof. apply careful_ret. Qed.

Lemma careful_prop (v : value) (name : string) : careful (prop v name).
Proof.
  unfold prop. destruct (member v name); [apply careful_ret|apply careful_throw].
Qed.

Lemma careful_pool_query {A} (stmt : statement A) : careful (pool_query stmt).
Proof.
  intros env w w' o. unfold pool_query.
  destruct (fault env (issued w)) eqn:F.
  { intros [= <- <-]. cbn. split; [lia|]. intros k ? ?. lia. }
  destruct (stmt _ _) as [[d rows]|]; intros [= <- <-]; cbn.
  - split; [lia|]. intros k ? ?. by replace k with (issued w) by lia.
  - split; [lia|]. intros k ? ?. lia.
Qed.

Lemma careful_bind {A B} (m : M A) (k : A → M B) :
  careful m → (∀ a, careful (k a)) → careful (bind m k).
Proof.
  intros Hm Hk env w w' o. unfold bind.
  destruct (m env w) as [w1 [a|e]] eqn:R; apply Hm in R as [Hle Hq].
  - intros R2. apply Hk in R2 as [Hle2 Hq2]. split; [lia|].
    destruct o.
    + by eapply quiet_join.
    + destruct (decide (issued w1 < issued w')%nat).
      * eapply quiet_join; [exact Hq|done].
      * eapply quiet_shrink; [|exact Hq]. lia.
  - intros [= <- <-]. by split.
Qed.

Lemma careful_for_each {A} (xs : list A) (body : A → M unit) :
  (∀ x, careful (body x)) → careful (for_each xs body).
Proof.
  intros Hb. induction xs as [|x xs IH]; [apply careful_ret|].
  apply careful_bind; [apply Hb|]. by intros _.
Qed.

Lemma careful_insert_sections tid (v : value) :
  careful (insert_sections tid v).
Proof.
  rewrite insert_sections_elements. apply careful_for_each. intros x.
  unfold insert_each.
  repeat (apply careful_bind; [apply careful_prop|intros ?]).
  apply careful_pool_query.
Qed.

(** *** No more statements than the request calls for *)

Lemma within_ret {A} (a : A) : within 0 (ret a).
Proof. intros env w w' o [= <- <-]. lia. Qed.

Lemma within_throw {A} (e : exn) : within 0 (@throw A e).
Proof. intros env w w' o [= <- <-]. lia. Qed.

Lemma within_prop (v : value) (name : string) : within 0 (prop v name).
Proof.
  unfold prop. destruct (member v name); [apply within_ret|apply within_throw].
Qed.

Lemma within_pool_query {A} (stmt : statement A) : within 1 (pool_query stmt).
Proof.
  intros env w w' o. unfold pool_query.
  destruct (fault env (issued w)); [intros [= <- <-]; cbn; lia|].
  destruct (stmt _ _) as [[d rows]|]; intros [= <- <-]; cbn; lia.
Qed.

Lemma within_bind {A B} (n1 n2 : nat) (m : M A) (k : A → M B) :
  within n1 m → (∀ a, within n2 (k a)) → within (n1 + n2) (bind m k).
Proof.
  intros Hm Hk env w w' o. unfold bind.
  destruct (m env w) as [w1 [a|e]] eqn:R; apply Hm in R.
  - intros R2. apply Hk in R2. lia.
  - intros [= <- <-]. lia.
Qed.

Lemma within_weaken {A} (n1 n2 : nat) (m : M A) :
  (n1 ≤ n2)%nat → within n1 m → within n2 m.
Proof. intros Hle Hm env w w' o R. apply Hm in R. lia. Qed.

Lemma within_try_catch {A} (n : nat) (m : M A) (h : exn → M A) :
  within n m → (∀ e, within 0 (h e)) → within n (try_catch m h).
Proof.
  intros Hm Hh env w w' o. unfold try_catch.
  destruct (m env w) as [w1 [a|e]] eqn:R; apply Hm in R.
  - intros [= <- <-]. lia.
  - intros R2. apply Hh in R2. lia.
Qed.

Lemma within_insert_each tid (x : value) : within 1 (insert_each tid x).
Proof.
  unfold insert_each.
  repeat (apply (within_bind 0); [apply within_prop|intros ?]).
  apply within_pool_query.
Qed.

Lemma within_for_each {A} (xs : list A) (body : A → M unit) :
  (∀ x, within 1 (body x)) → within (length xs) (for_each xs body).
Proof.
  intros Hb. induction xs as [|x xs IH]; [apply within_ret|].
  apply (within_bind 1 (length xs)); [apply Hb|]. by intros _.
Qed.

Lemma within_insert_sections tid (v : value) :
  within (length (elements v)) (insert_sections tid v).
Proof.
  rewrite insert_sections_elements. apply within_for_each.
  apply within_insert_each.
Qed.

(** *** Every route *)

Ltac careful_steps :=
  repeat first
    [ apply careful_reply | apply careful_throw | apply careful_prop
    | apply careful_pool_query | apply careful_insert_sections
    | apply careful_bind; [|intros ?]
    | match goal with
      | |- careful (match ?x with _ => _ end) => destruct x
      end ].

Ltac within_steps :=
  repeat first
    [ apply within_ret | apply within_throw
    | apply (within_bind 0); [apply within_prop|intros ?] ].

Lemma caught {A} (m : M A) (h : exn → M A) env w :
  (∀ e env w, ∃ w' r, h e env w = (w', Ok r)) →
  ∃ w' r, try_catch m h env w = (w', Ok r).
Proof.
  intros Hh. unfold try_catch. destruct (m env w) as [w1 [a|e]]; eauto.
Qed.

Lemma reply_returns (code : Z) (body : payload) env w :
  ∃ w' r, reply code body env w = (w', Ok r).
Proof. by eexists _, _. Qed.

(** X1. No route lets an error escape: whatever the store fails, whatever
    the body holds, the handler completes with a response, so the
    error-handling middleware is never reached. *)
Theorem routes_catch_everything (q : request) (env : Env) (w : World) :
  ∃ w' r, route q env w = (w', Ok r).
Proof.
  destruct q; cbn [route]; try (apply caught; intros; apply reply_returns).
  apply reply_returns.
Qed.

Lemma caught_careful (m : M Response) (msg : string) env w w' o :
  careful m →
  try_catch m (λ _, reply 500 (JError msg)) env w = (w', o) →
  quiet env (issued w) (pred (issued w')).
Proof.
  intros Hm. unfold try_catch.
  destruct (m env w) as [w1 [a|e]] eqn:R; apply Hm in R as [Hle Hq].
  - intros [= <- <-]. eapply quiet_shrink; [|exact Hq]. lia.
  - intros [= <- <-]. done.
Qed.

(** X2. A route stops at the first statement the store fails: every
    statement it issued before its last one was answered. *)
Theorem routes_stop_at_failure (q : request) (env : Env) (s : Store) (k : nat) :
  (S k < issued (fst (route q env (mkWorld s 0))))%nat →
  fault env k = false.
Proof.
  intros Hk.
  destruct (route q env (mkWorld s 0)) as [w' o] eqn:R. cbn [fst] in Hk.
  assert (Hq : quiet env 0 (pred (issued w'))).
  { destruct q; cbn [route] in R.
    - injection R as <- <-. intros ? ? ?. cbn in *. lia.
    - eapply caught_careful in R; [done|]. careful_steps.
    - eapply caught_careful in R; [done|]. careful_steps.
    - eapply caught_careful in R; [done|]. careful_steps.
    - eapply caught_careful in R; [done|]. careful_steps.
    - eapply caught_careful in R; [done|]. careful_steps.
    - eapply caught_careful in R; [done|]. careful_steps. }
  apply Hq; lia.
Qed.

Lemma within_bind_prop {B} (n : nat) (v : value) (name : string)
    (k : value → M B) :
  (∀ x, member v name = Some x → within n (k x)) →
  within n (bind (prop v name) k).
Proof.
  intros Hk env w w' o. unfold bind, prop.
  destruct (member v name) as [x|]; cbn.
  - by apply Hk.
  - intros [= <- <-]. lia.
Qed.

Lemma within_reply (code : Z) (body : payload) : within 0 (reply code body).
Proof. apply within_ret. Qed.

Lemma within_route (q : request) : within (budget q) (route q).
Proof.
  destruct q as [| |id|body|id body|id|id]; cbn [route budget].
  - apply within_reply.
  - apply within_try_catch; [|intros; apply within_reply].
    apply (within_bind 1 0); [apply within_pool_query|].
    intros; apply within_reply.
  - apply within_try_catch; [|intros; apply within_reply].
    apply (within_bind 1 0); [apply within_pool_query|].
    intros [|row rows]; apply within_reply.
  - apply within_try_catch; [|intros; apply within_reply].
    do 3 (apply within_bind_prop; intros ? _).
    apply within_bind_prop; intros secoes Hsec.
    rewrite (field_member _ _ _ Hsec).
    apply (within_bind 1 (length (elements secoes)));
      [apply within_pool_query|].
    intros [|row rows].
    + eapply within_weaken; [|apply within_throw]. lia.
    + cbv zeta. eapply within_weaken;
        [|apply (within_bind (length (elements secoes)) 0);
          [apply within_insert_sections|intros; apply within_reply]].
      lia.
  - apply within_try_catch; [|intros; apply within_reply].
    do 3 (apply within_bind_prop; intros ? _).
    apply within_bind_prop; intros secoes Hsec.
    rewrite (field_member _ _ _ Hsec).
    apply (within_bind 1 (1 + length (elements secoes)));
      [apply within_pool_query|].
    intros [|row rows].
    + eapply within_weaken; [|apply within_reply]. lia.
    + apply (within_bind 1 (length (elements secoes)));
        [apply within_pool_query|]. intros _.
      eapply within_weaken;
        [|apply (within_bind (length (elements secoes)) 0);
          [apply within_insert_sections|intros; apply within_reply]].
      lia.
  - apply within_try_catch; [|intros; apply within_reply].
    apply (within_bind 1 1); [apply within_pool_query|]. intros _.
    apply (within_bind 1 0); [apply within_pool_query|].
    intros [|row rows]; apply within_reply.
  - apply within_try_catch; [|intros; apply within_reply].
    apply (within_bind 1 0); [apply within_pool_query|].
    intros; apply within_reply.
Qed.

Lemma pool_query_issued {A} (stmt : statement A) env w :
  issued (fst (pool_query stmt env w)) = S (issued w).
Proof.
  unfold pool_query. destruct (fault env (issued w)); [done|].
  by destruct (stmt _ _) as [[d rows]|].
Qed.

(** X3. A request costs the store a bounded number of statements: none for
    the health check, exactly one for each of the three reads, at most two
    for a delete, and for a create or an update at most one or two plus one
    per element of the [secoes] array. *)
Theorem routes_within_budget (q : request) (env : Env) (s : Store) :
  (issued (fst (route q env (mkWorld s 0))) ≤ budget q)%nat ∧
  match q with
  | GetTreinos | GetTreino _ | GetSecoes _ =>
    issued (fst (route q env (mkWorld s 0))) = 1%nat
  | _ => True
  end.
Proof.
  split.
  - destruct (route q env (mkWorld s 0)) as [w' o] eqn:R.
    apply within_route in R. cbn in *. lia.
  - destruct q; try done; cbn [route];
      unfold get_treinos, get_treino, get_secoes, try_catch, bind;
      match goal with
      | |- context [pool_query ?st env ?w] =>
        pose proof (pool_query_issued st env w) as Hn;
        destruct (pool_query st env w) as [w1 [rows|e]]
      end; cbn in *; try done.
    by destruct rows.
Qed.

Lemma get_treinos_run (env : Env) (s : Store) :
  serve get_treinos env s =
    (s, if fault env 0%nat then failed "Failed to fetch treinos"
        else mkResponse 200 (JTreinos (merge_sort by_data_desc (treinos s)))).
Proof.
  unfold serve, get_treinos, try_catch, bind, pool_query, select_treinos.
  cbn. by destruct (fault env 0%nat).
Qed.

Lemma get_health_run (env : Env) (s : Store) :
  serve get_health env s
  = (s, mkResponse 200 (JHealth "OK" "Backend is running")).
Proof. reflexivity. Qed.

Ltac run_route q :=
  destruct q; cbn [route];
  rewrite ?get_health_run, ?get_treinos_run, ?get_treino_run,
    ?get_secoes_run, ?post_treino_run, ?put_treino_run, ?delete_treino_run.

(** X4. Each route answers with one of its own status codes only, and its
    error responses carry fixed texts: a 500 the route's failure message, a
    404 the not-found message, never a detail of the error. *)
Theorem routes_answer_fixed_errors (q : request) (env : Env) (s : Store) :
  let r := snd (serve (route q) env s) in
  status r ∈ statuses q ∧
  (status r = 500 → json r = JError (failure_text q)) ∧
  (status r = 404 → json r = JError "Treino not found").
Proof.
  run_route q; cbn [statuses failure_text]; repeat case_match; cbn;
    (split_and!; [set_solver|done..]).
Qed.

(** X5. The routes registered with [app.get] never change the store, in
    any outcome. *)
Theorem gets_are_read_only (q : request) (env : Env) (s : Store) :
  is_get q = true → fst (serve (route q) env s) = s.
Proof.
  intros Hq. run_route q; try done; by repeat case_match.
Qed.

(** *** Requests the store answers in full *)

Lemma post_success (body : value) (d : option Z) (env : Env) (s : Store) :
  member body "data" ≠ None →
  date_param (field body "data") = Some d →
  Forall acceptable (elements (field body "secoes")) →
  (∀ k, (k ≤ length (elements (field body "secoes")))%nat →
        fault env k = false) →
  let row := created d (text_param (field body "dia_semana"))
               (text_param (field body "foco_tecnico")) (now env 0%nat) s in
  ∃ new,
    serve (post_treino body) env s =
      (mkStore (treinos s ++ [row]) (secoes s ++ new) (treinos_seq s + 1)
         (secoes_seq s + Z.of_nat (length new)),
       mkResponse 201 (JTreino row)) ∧
    Forall2 (submitted (Some (treinos_seq s)))
      (elements (field body "secoes")) new.
Proof.
  intros Hb Hd Hacc Hf row. rewrite post_treino_run.
  destruct (member body "data"); [|done].
  rewrite (Hf 0%nat) by lia.
  destruct (insert_treino _ _ _ _ s) as [[s1 rows]|] eqn:I.
  2: { unfold insert_treino in I. by rewrite Hd in I. }
  apply insert_treino_inv in I as (d' & Hd' & Hs1 & ->).
  rewrite Hd in Hd'. injection Hd' as <-.
  change (Treino.id (created _ _ _ _ s)) with (treinos_seq s).
  destruct (for_each_insert_ok (VNum (treinos_seq s)) (Some (treinos_seq s))
              (elements (field body "secoes")) env (mkWorld s1 1))
    as (w & L & _); [done|done|..].
  { intros i Hi. cbn [issued]. apply Hf. lia. }
  rewrite L.
  apply (for_each_insert _ (Some (treinos_seq s))) in L; [|done].
  destruct L as (new & Hdb & _ & Hall & Hlen). cbn [db] in Hdb.
  rewrite Hlen, firstn_all in Hall.
  exists new. split; [|done]. rewrite Hdb, Hs1. done.
Qed.

Lemma put_success (id : string) (body : value) (d : option Z)
    (row0 : Treino.t) (env : Env) (s : Store) :
  member body "data" ≠ None →
  date_param (field body "data") = Some d →
  found id s row0 →
  Forall acceptable (elements (field body "secoes")) →
  (∀ k, (k ≤ 1 + length (elements (field body "secoes")))%nat →
        fault env k = false) →
  let z := Treino.id row0 in
  let change := updated d (text_param (field body "dia_semana"))
                  (text_param (field body "foco_tecnico")) (now env 0%nat) z in
  ∃ new r0 rest,
    serve (put_treino id body) env s =
      (mkStore (change <$> treinos s)
         (filter (λ r, Secao.treino_id r ≠ Some z) (secoes s) ++ new)
         (treinos_seq s) (secoes_seq s + Z.of_nat (length new)),
       mkResponse 200 (JTreino (change r0))) ∧
    filter (λ r, Treino.id r = z) (treinos s) = r0 :: rest ∧
    Forall2 (submitted (Some z)) (elements (field body "secoes")) new.
Proof.
  intros Hb Hd [Hin Hz] Hacc Hf z change. rewrite put_treino_run.
  destruct (member body "data"); [|done].
  rewrite (Hf 0%nat) by lia.
  destruct (update_treino _ _ _ _ _ s) as [[s1 rows]|] eqn:U.
  2: { apply update_treino_none in U as [U|U]; congruence. }
  apply update_treino_inv in U as (d' & z' & Hd' & Hz' & Hs1 & Hrows).
  rewrite Hd in Hd'. injection Hd' as <-.
  rewrite Hz in Hz'. injection Hz' as <-.
  destruct (filter (λ r, Treino.id r = Treino.id row0) (treinos s))
    as [|r0 rest] eqn:Hhit.
  { assert (H0 : row0 ∈ filter (λ r, Treino.id r = Treino.id row0) (treinos s))
      by (by apply list_elem_of_filter).
    rewrite Hhit in H0. by apply elem_of_nil in H0. }
  rewrite Hrows, fmap_cons. rewrite (Hf 1%nat) by lia.
  destruct (delete_secoes _ _ s1) as [[s2 u]|] eqn:D.
  2: { apply delete_secoes_none in D. congruence. }
  apply (delete_secoes_inv id _ (Treino.id row0)) in D; [|done].
  rewrite insert_sections_elements.
  destruct (for_each_insert_ok (VStr id) (Some (Treino.id row0))
              (elements (field body "secoes")) env (mkWorld s2 2))
    as (w & L & _); [by rewrite int_param_str, Hz|done|..].
  { intros i Hi. cbn [issued]. apply Hf. lia. }
  rewrite L.
  apply (for_each_insert _ (Some (Treino.id row0))) in L;
    [|by rewrite int_param_str, Hz].
  destruct L as (new & Hdb & _ & Hall & Hlen). cbn [db] in Hdb.
  rewrite Hlen, firstn_all in Hall.
  exists new, r0, rest. split_and!; [|done|done].
  rewrite Hdb, D, Hs1. done.
Qed.

Lemma filter_key (l : list Treino.t) (row0 : Treino.t) :
  NoDup (Treino.id <$> l) → row0 ∈ l →
  filter (λ r, Treino.id r = Treino.id row0) l = [row0].
Proof.
  induction l as [|a l IH]; intros ND Hin; [by apply elem_of_nil in Hin|].
  rewrite fmap_cons in ND. apply NoDup_cons in ND as [Ha ND].
  apply elem_of_cons in Hin as [->|Hin].
  - rewrite filter_cons_True by done. f_equal.
    apply filter_none, Forall_forall. intros x Hx Hid. apply Ha.
    rewrite <- Hid. by apply list_elem_of_fmap_2.
  - rewrite filter_cons_False; [by apply IH|].
    intros Hid. apply Ha. rewrite Hid. by apply list_elem_of_fmap_2.
Qed.

Lemma filter_updated d dia foco (t z : Z) (l : list Treino.t) :
  filter (λ r, Treino.id r = z) (updated d dia foco t z <$> l)
  = updated d dia foco t z <$> filter (λ r, Treino.id r = z) l.
Proof.
  induction l as [|a l IH]; [done|]. rewrite fmap_cons, !filter_cons.
  rewrite updated_id. destruct (decide (Treino.id a = z)); [|done].
  by rewrite fmap_cons, IH.
Qed.

(** X6. A workout created with N acceptable sections has exactly those N
    sections when read back, ordered by [ordem] whatever the order they
    were submitted in (from a store whose keys are sound). *)
Theorem post_then_read_secoes (body : value) (d : option Z) (id : string)
    (env env' : Env) (s : Store) :
  wf_store s → referential s →
  member body "data" ≠ None →
  date_param (field body "data") = Some d →
  Forall acceptable (elements (field body "secoes")) →
  (∀ k, (k ≤ length (elements (field body "secoes")))%nat →
        fault env k = false) →
  int4in id = Some (treinos_seq s) →
  fault env' 0%nat = false →
  ∃ rows new,
    snd (serve (get_secoes id) env' (fst (serve (post_treino body) env s)))
      = mkResponse 200 (JSecoes rows) ∧
    rows ≡ₚ new ∧
    Forall2 (submitted (Some (treinos_seq s)))
      (elements (field body "secoes")) new ∧
    length rows = length (elements (field body "secoes")) ∧
    StronglySorted by_ordem rows.
Proof.
  intros WF Ref Hb Hd Hacc Hf Hid F.
  destruct (post_success body d env s Hb Hd Hacc Hf) as (new & -> & Hall).
  cbn [fst]. rewrite get_secoes_run, F, Hid. cbn [snd].
  assert (Hof : secoes_of (treinos_seq s)
                  (mkStore
                     (treinos s ++
                        [created d (text_param (field body "dia_semana"))
                           (text_param (field body "foco_tecnico"))
                           (now env 0%nat) s])
                     (secoes s ++ new) (treinos_seq s + 1)
                     (secoes_seq s + Z.of_nat (length new))) = new).
  { unfold secoes_of. cbn [secoes]. rewrite filter_app.
    rewrite (filter_none _ (secoes s)), (filter_all _ new);
      [done|by eapply submitted_key|].
    unfold referential in Ref. eapply Forall_impl; [exact Ref|].
    intros r (w & Hw & Hk) Hz. cbn in Hz. rewrite Hk in Hz.
    injection Hz as Hz. pose proof (wf_treino_seq s WF) as Hseq.
    rewrite Forall_forall in Hseq. specialize (Hseq w Hw). cbn in Hseq. lia. }
  rewrite Hof. exists (merge_sort by_ordem new), new. split_and!; try done.
  - apply merge_sort_Permutation.
  - rewrite merge_sort_Permutation. symmetry. by eapply Forall2_length.
  - apply StronglySorted_merge_sort; apply _.
Qed.

(** X7. An update of an existing workout with M acceptable sections, which
    the store answers in full, succeeds with 200, and reading the sections
    back gives exactly the M submitted ones ordered by [ordem]. *)
Theorem put_then_read_secoes (id : string) (body : value) (d : option Z)
    (row0 : Treino.t) (env env' : Env) (s : Store) :
  member body "data" ≠ None →
  date_param (field body "data") = Some d →
  found id s row0 →
  Forall acceptable (elements (field body "secoes")) →
  (∀ k, (k ≤ 1 + length (elements (field body "secoes")))%nat →
        fault env k = false) →
  fault env' 0%nat = false →
  ∃ rows new,
    status (snd (serve (put_treino id body) env s)) = 200 ∧
    snd (serve (get_secoes id) env' (fst (serve (put_treino id body) env s)))
      = mkResponse 200 (JSecoes rows) ∧
    rows ≡ₚ new ∧
    Forall2 (submitted (Some (Treino.id row0)))
      (elements (field body "secoes")) new ∧
    length rows = length (elements (field body "secoes")) ∧
    StronglySorted by_ordem rows.
Proof.
  intros Hb Hd Hfound Hacc Hf F.
  destruct (put_success id body d row0 env s Hb Hd Hfound Hacc Hf)
    as (new & r0 & rest & -> & _ & Hall).
  destruct Hfound as [_ Hz].
  cbn [fst snd status]. rewrite get_secoes_run, F, Hz.
  assert (Hof : ∀ ts a b, secoes_of (Treino.id row0)
                  (mkStore ts
                     (filter (λ r, Secao.treino_id r ≠ Some (Treino.id row0))
                        (secoes s) ++ new) a b) = new).
  { intros ts a b. unfold secoes_of. cbn [secoes]. rewrite filter_app.
    rewrite (filter_none _ (filter _ _)), (filter_all _ new);
      [done|by eapply submitted_key|].
    apply Forall_forall. intros x Hx.
    by apply list_elem_of_filter in Hx as [Hx _]. }
  rewrite Hof. exists (merge_sort by_ordem new), new. split_and!; try done.
  - apply merge_sort_Permutation.
  - rewrite merge_sort_Permutation. symmetry. by eapply Forall2_length.
  - apply StronglySorted_merge_sort; apply _.
Qed.

(** X8. A successful update answers with the stored row under its new
    values: the id and the creation timestamp are those it had, the update
    timestamp is that of the UPDATE statement, and a following
    [GET /api/treinos/:id] returns the same row. *)
Theorem put_then_read_treino (id : string) (body : value) (d : option Z)
    (row0 : Treino.t) (env env' : Env) (s : Store) :
  wf_store s →
  member body "data" ≠ None →
  date_param (field body "data") = Some d →
  found id s row0 →
  Forall acceptable (elements (field body "secoes")) →
  (∀ k, (k ≤ 1 + length (elements (field body "secoes")))%nat →
        fault env k = false) →
  fault env' 0%nat = false →
  let row := Treino.mk (Treino.id row0) d
               (text_param (field body "dia_semana"))
               (text_param (field body "foco_tecnico"))
               (Treino.criado_em row0) (Some (now env 0%nat)) in
  snd (serve (put_treino id body) env s) = mkResponse 200 (JTreino row) ∧
  snd (serve (get_treino id) env' (fst (serve (put_treino id body) env s)))
    = mkResponse 200 (JTreino row).
Proof.
  intros WF Hb Hd Hfound Hacc Hf F row.
  destruct (put_success id body d row0 env s Hb Hd Hfound Hacc Hf)
    as (new & r0 & rest & -> & Hhit & _).
  destruct Hfound as [Hin Hz].
  rewrite (filter_key _ _ (wf_treino_ids s WF) Hin) in Hhit.
  injection Hhit as <- <-.
  assert (Hrow : updated d (text_param (field body "dia_semana"))
                   (text_param (field body "foco_tecnico")) (now env 0%nat)
                   (Treino.id row0) row0 = row).
  { unfold updated. by rewrite Z.eqb_refl. }
  cbn [fst snd]. rewrite Hrow. split; [done|].
  rewrite get_treino_run, F, Hz. cbn [treinos snd].
  by rewrite filter_updated, (filter_key _ _ (wf_treino_ids s WF) Hin),
    fmap_cons, Hrow.
Qed.

(** *** Requests that fail half-way *)

(** X9. When an update has changed the workout row and deleted its
    sections, and the insert of a later section fails, the response is 500,
    yet the row keeps its new values, the old sections are gone and only
    the sections inserted before the failure are there: the update is not
    undone. *)
Theorem put_keeps_partial_update (id : string) (body : value) (d : option Z)
    (row0 : Treino.t) (pre : list value) (x : value) (post : list value)
    (env : Env) (s : Store) :
  member body "data" ≠ None →
  date_param (field body "data") = Some d →
  found id s row0 →
  fault env 0%nat = false → fault env 1%nat = false →
  elements (field body "secoes") = pre ++ x :: post →
  Forall acceptable pre →
  (∀ i, (i < length pre)%nat → fault env (2 + i) = false) →
  ¬ acceptable x ∨ fault env (2 + length pre) = true →
  ∃ s' new,
    serve (put_treino id body) env s
      = (s', mkResponse 500 (JError "Failed to update treino")) ∧
    treinos s' =
      updated d (text_param (field body "dia_semana"))
        (text_param (field body "foco_tecnico")) (now env 0%nat)
        (Treino.id row0) <$> treinos s ∧
    secoes s' =
      filter (λ r, Secao.treino_id r ≠ Some (Treino.id row0)) (secoes s)
        ++ new ∧
    Forall2 (submitted (Some (Treino.id row0))) pre new.
Proof.
  intros Hb Hd [Hin Hz] F0 F1 Hel Hacc Hf Hbad. rewrite put_treino_run.
  destruct (member body "data"); [|done]. rewrite F0.
  destruct (update_treino _ _ _ _ _ s) as [[s1 rows]|] eqn:U.
  2: { apply update_treino_none in U as [U|U]; congruence. }
  apply update_treino_inv in U as (d' & z' & Hd' & Hz' & Hs1 & Hrows).
  rewrite Hd in Hd'. injection Hd' as <-.
  rewrite Hz in Hz'. injection Hz' as <-.
  destruct rows as [|row rows].
  { assert (H0 : row0 ∈ filter (λ r, Treino.id r = Treino.id row0) (treinos s))
      by (by apply list_elem_of_filter).
    symmetry in Hrows. apply fmap_nil_inv in Hrows. rewrite Hrows in H0.
    by apply elem_of_nil in H0. }
  rewrite F1. destruct (delete_secoes _ _ s1) as [[s2 u]|] eqn:D.
  2: { apply delete_secoes_none in D. congruence. }
  apply (delete_secoes_inv id _ (Treino.id row0)) in D; [|done].
  assert (K : int_param (VStr id) = Some (Some (Treino.id row0)))
    by (by rewrite int_param_str, Hz).
  rewrite insert_sections_elements, Hel, for_each_app.
  destruct (for_each_insert_ok (VStr id) (Some (Treino.id row0)) pre env
              (mkWorld s2 2)) as (w & L & Hn); [done|done|..].
  { intros i Hi. cbn [issued]. by apply Hf. }
  rewrite L. cbn [for_each]. unfold bind. cbn [issued] in Hn.
  destruct (insert_each_fail (VStr id) (Some (Treino.id row0)) x env w)
    as (e & n & ->); [done| |].
  { by rewrite Hn. }
  apply (for_each_insert _ (Some (Treino.id row0))) in L; [|done].
  destruct L as (new & Hdb & _ & Hall & Hlen). cbn [db] in *.
  rewrite Hlen, firstn_all in Hall.
  exists (db w), new. rewrite Hdb, D, Hs1. by cbn [treinos secoes].
Qed.

(** X10. When the store fails the second statement of a delete, the
    response is 500 and the workout row is still there, but its sections
    are already deleted. *)
Theorem delete_keeps_workout_without_sections (id : string) (z : Z)
    (env : Env) (s : Store) :
  int4in id = Some z →
  fault env 0%nat = false → fault env 1%nat = true →
  ∃ s',
    serve (delete_treino_handler id) env s
      = (s', mkResponse 500 (JError "Failed to delete treino")) ∧
    treinos s' = treinos s ∧
    secoes s' = filter (λ r, Secao.treino_id r ≠ Some z) (secoes s).
Proof.
  intros K F0 F1. rewrite delete_treino_run, F0.
  destruct (delete_secoes _ _ s) as [[s1 u]|] eqn:D.
  2: { apply delete_secoes_none in D. congruence. }
  apply (delete_secoes_inv id _ z) in D; [|done].
  rewrite F1. exists s1. by rewrite D.
Qed.

(** X11. Deleting a workout a second time finds nothing: after a delete
    answered with 200, the same delete answers 404 and leaves the store as
    the first one left it. *)
Theorem delete_twice (id : string) (env env' : Env) (s : Store) :
  status (snd (serve (delete_treino_handler id) env s)) = 200 →
  fault env' 0%nat = false → fault env' 1%nat = false →
  let s' := fst (serve (delete_treino_handler id) env s) in
  serve (delete_treino_handler id) env' s'
    = (s', mkResponse 404 (JError "Treino not found")).
Proof.
  intros H200 F0 F1. rewrite delete_treino_run in H200 |- *.
  destruct (fault env 0%nat); [done|].
  destruct (delete_secoes _ _ s) as [[s1 u]|] eqn:D; [|done].
  assert (D' := D). unfold delete_secoes in D'. rewrite int_param_str in D'.
  destruct (int4in id) as [z|] eqn:K; [|done]. clear D'.
  apply (delete_secoes_inv id _ z) in D; [|done].
  destruct (fault env 1%nat); [done|].
  destruct (delete_treino _ _ s1) as [[s2 rows]|] eqn:D2; [|done].
  apply delete_treino_inv in D2 as (z' & Hz' & Hs2 & _).
  rewrite K in Hz'. injection Hz' as <-.
  assert (Hs' : fst match rows with
                     | [] => (s2, mkResponse 404 (JError "Treino not found"))
                     | _ :: _ =>
                       (s2, mkResponse 200
                              (JMessage "Treino deleted successfully"))
                     end = s2) by (by destruct rows).
  cbn zeta. rewrite Hs'. rewrite delete_treino_run, F0, F1.
  unfold delete_secoes, delete_treino. rewrite int_param_str, K. cbn.
  rewrite Hs2, D. cbn [treinos secoes treinos_seq secoes_seq].
  assert (E1 : filter (λ r, sql_eq (Secao.treino_id r) (Some z) = false)
                 (filter (λ r, Secao.treino_id r ≠ Some z) (secoes s))
               = filter (λ r, Secao.treino_id r ≠ Some z) (secoes s)).
  { apply filter_all, Forall_forall. intros x Hx.
    apply list_elem_of_filter in Hx as [Hx _]. apply sql_eq_false.
    naive_solver. }
  assert (E2 : filter (λ r, sql_eq (Some (Treino.id r)) (Some z) = false)
                 (filter (λ r, Treino.id r ≠ z) (treinos s))
               = filter (λ r, Treino.id r ≠ z) (treinos s)).
  { apply filter_all, Forall_forall. intros x Hx.
    apply list_elem_of_filter in Hx as [Hx _]. cbn. by apply Z.eqb_neq. }
  assert (E3 : filter (λ r, sql_eq (Some (Treino.id r)) (Some z) = true)
                 (filter (λ r, Treino.id r ≠ z) (treinos s)) = []).
  { apply filter_none, Forall_forall. intros x Hx.
    apply list_elem_of_filter in Hx as [Hx _]. cbn. by rewrite Z.eqb_eq. }
  cbn in E1, E2, E3. by rewrite E1, E2, E3.
Qed.

(** *** What the writers leave alone *)

(** X12. A create only appends: in every outcome the rows that were in the
    two tables are still there, unchanged and in place, followed by at most
    one new workout and at most one new section per element of [secoes],
    all of them sections of the new workout; no section is added without
    the workout. *)
Theorem post_only_appends (body : value) (env : Env) (s : Store) :
  ∃ ts ss,
    treinos (fst (serve (post_treino body) env s)) = treinos s ++ ts ∧
    secoes (fst (serve (post_treino body) env s)) = secoes s ++ ss ∧
    (length ts ≤ 1)%nat ∧
    (length ss ≤ length (elements (field body "secoes")))%nat ∧
    (ts = [] → ss = []) ∧
    Forall (λ r, Secao.treino_id r = Some (treinos_seq s)) ss.
Proof.
  assert (Hsame : ∃ ts ss,
    treinos s = treinos s ++ ts ∧ secoes s = secoes s ++ ss ∧
    (length ts ≤ 1)%nat ∧
    (length ss ≤ length (elements (field body "secoes")))%nat ∧
    (ts = [] → ss = []) ∧
    Forall (λ r, Secao.treino_id r = Some (treinos_seq s)) ss).
  { exists [], []. rewrite !app_nil_r. cbn. split_and!; try done; lia. }
  rewrite post_treino_run. destruct (member body "data"); [|done].
  destruct (fault env 0%nat); [done|].
  destruct (insert_treino _ _ _ _ s) as [[s1 rows]|] eqn:I; [|done].
  apply insert_treino_inv in I as (d & _ & Hs1 & ->).
  change (Treino.id (created _ _ _ _ s)) with (treinos_seq s).
  destruct (for_each _ _ env _) as [w o] eqn:L.
  apply (for_each_insert _ (Some (treinos_seq s))) in L; [|done].
  destruct L as (new & Hdb & _ & Hall & Hlen). cbn [db] in Hdb.
  assert (Hn : (length new ≤ length (elements (field body "secoes")))%nat)
    by (destruct o; lia).
  apply submitted_key in Hall.
  eexists [_], new.
  destruct o; cbn [fst]; rewrite Hdb, Hs1; cbn [treinos secoes];
    split_and!; done.
Qed.




(** *** Requests the handlers do not check *)

(** X14. A create or an update whose body is [undefined] or [null] is
    answered with 500 before any statement is issued, and the store is not
    touched. *)
Theorem unreadable_body_is_rejected (id : string) (body : value) (env : Env)
    (s : Store) :
  nullish body →
  route (PostTreino body) env (mkWorld s 0)
    = (mkWorld s 0, Ok (mkResponse 500 (JError "Failed to create treino"))) ∧
  route (PutTreino id body) env (mkWorld s 0)
    = (mkWorld s 0, Ok (mkResponse 500 (JError "Failed to update treino"))).
Proof. by intros [-> | ->]. Qed.

Lemma nullish_date (v : value) : nullish v → date_param v = Some None.
Proof. by intros [-> | ->]. Qed.

Lemma nullish_text (v : value) : nullish v → text_param v = None.
Proof. by intros [-> | ->]. Qed.

(** X15. The create handler validates nothing: a readable body without
    [data], [dia_semana] and [foco_tecnico] (or with [null] for them) goes
    to the store with NULL in the three columns, and when the store takes
    it the response is 201 with that row. *)
Theorem post_sends_missing_fields_as_null (body : value) (env : Env)
    (s : Store) :
  member body "data" ≠ None →
  nullish (field body "data") →
  nullish (field body "dia_semana") →
  nullish (field body "foco_tecnico") →
  isArray (field body "secoes") = false →
  fault env 0%nat = false →
  let row := Treino.mk (treinos_seq s) None None None
               (Some (now env 0%nat)) (Some (now env 0%nat)) in
  serve (post_treino body) env s
    = (mkStore (treinos s ++ [row]) (secoes s) (treinos_seq s + 1)
         (secoes_seq s),
       mkResponse 201 (JTreino row)).
Proof.
  intros Hb Hd Hdia Hfoco Harr F0 row.
  destruct (post_success body None env s) as (new & -> & Hall);
    [done|by apply nullish_date| | |].
  - by rewrite (elements_other _ Harr).
  - intros k Hk. rewrite (elements_other _ Harr) in Hk.
    by replace k with 0%nat by (cbn in Hk; lia).
  - rewrite (elements_other _ Harr) in Hall. apply Forall2_nil_inv_l in Hall.
    subst new. unfold created.
    rewrite (nullish_text _ Hdia), (nullish_text _ Hfoco), app_nil_r.
    cbn [length]. by rewrite Z.add_0_r.
Qed.

(** X16. A path parameter the store does not read as an integer is not
    answered with 404: each of the four routes with [:id] answers 500 with
    its failure text, and changes nothing. *)
Theorem bad_id_is_a_failure (q : request) (id : string) (env : Env)
    (s : Store) :
  path_id q = Some id →
  int4in id = None →
  serve (route q) env s = (s, mkResponse 500 (JError (failure_text q))).
Proof.
  intros Hq K. run_route q; try done; injection Hq as ->;
    cbn [failure_text].
  - rewrite K. by destruct (fault env 0%nat).
  - destruct (member body "data"); [|done].
    destruct (fault env 0%nat); [done|].
    unfold update_treino. rewrite int_param_str, K.
    by destruct (date_param _).
  - destruct (fault env 0%nat); [done|].
    by rewrite (proj2 (delete_secoes_none id _ s) K).
  - rewrite K. by destruct (fault env 0%nat).
Qed.

(** *** Every store the service can reach *)

Lemma route_keeps_keys (q : request) (env : Env) (s : Store) :
  wf_store s → wf_store (fst (serve (route q) env s)).
Proof.
  intros WF.
  destruct q as [| |id|body|id body|id|id]; cbn [route].
  - done.
  - by destruct (wf_store_invariant "0" VNull env s WF) as (? & _).
  - by destruct (wf_store_invariant id VNull env s WF) as (_ & ? & _).
  - by destruct (wf_store_invariant "0" body env s WF) as (_ & _ & _ & ? & _).
  - by destruct (wf_store_invariant id body env s WF)
      as (_ & _ & _ & _ & ? & _).
  - by destruct (wf_store_invariant id VNull env s WF)
      as (_ & _ & _ & _ & _ & ?).
  - by destruct (wf_store_invariant id VNull env s WF) as (_ & _ & ? & _).
Qed.

Lemma route_keeps_references (q : request) (env : Env) (s : Store) :
  referential s → referential (fst (serve (route q) env s)).
Proof.
  intros Ref.
  destruct q as [| |id|body|id body|id|id]; cbn [route].
  - done.
  - by rewrite get_treinos_run.
  - by rewrite get_treino_run.
  - by destruct (referential_invariant "0" body env s Ref) as (? & _).
  - by destruct (referential_invariant id body env s Ref) as (_ & ? & _).
  - by destruct (referential_invariant id VNull env s Ref) as (_ & _ & ?).
  - by rewrite get_secoes_run.
Qed.

(** X17. Starting from empty tables, whatever requests are served and
    whatever the store fails along the way, the store always has unique ids
    below their sequences and every section belongs to a stored workout. *)
Theorem reachable_stores_are_sound (qs : list (request * Env)) (s : Store) :
  blank s →
  wf_store (serve_all qs s) ∧ referential (serve_all qs s).
Proof.
  intros [Ht Hs].
  assert (Hinit : wf_store s ∧ referential s).
  { split; [split|]; unfold referential; rewrite ?Ht, ?Hs; cbn;
      constructor. }
  clear Ht Hs. revert s Hinit.
  induction qs as [|[q env] qs IH]; intros s [WF Ref]; [done|].
  cbn [serve_all]. apply IH.
  split; [by apply route_keeps_keys|by apply route_keeps_references].
Qed.

End Routes.

(** *** The start-up configuration *)

Lemma js_or_string (o : option string) (d : value) :
  js_or (match o with Some u => VStr u | None => VUndefined end) d =
    match o with
    | Some u => if String.eqb u EmptyString then d else VStr u
    | None => d
    end.
Proof.
  unfold js_or. destruct o as [u|]; [|done]. cbn.
  by destruct (String.eqb u EmptyString).
Qed.

(** X18. An environment variable that is set to the empty string counts as
    unset: the port is the variable [PORT] when it is set and not empty and
    3000 otherwise, the allowed origin is [FRONTEND_URL] when it is set and
    not empty and the local address otherwise, so neither is ever empty;
    and the banner says the database is connected exactly when
    [DATABASE_URL] is set and not empty. *)
Theorem configuration_defaults (vars : gmap string string) :
  PORT vars =
    match vars !! "PORT" with
    | Some u => if String.eqb u EmptyString then VNum 3000 else VStr u
    | None => VNum 3000
    end ∧
  cors_origin vars =
    match vars !! "FRONTEND_URL" with
    | Some u =>
      if String.eqb u EmptyString then VStr "http://localhost:5173"
      else VStr u
    | None => VStr "http://localhost:5173"
    end ∧
  truthy (PORT vars) = true ∧
  truthy (cors_origin vars) = true ∧
  (database_banner vars = "Connected" ↔
     ∃ u, vars !! "DATABASE_URL" = Some u ∧ u ≠ EmptyString).
Proof.
  assert (HP : PORT vars =
    match vars !! "PORT" with
    | Some u => if String.eqb u EmptyString then VNum 3000 else VStr u
    | None => VNum 3000
    end) by apply js_or_string.
  assert (HO : cors_origin vars =
    match vars !! "FRONTEND_URL" with
    | Some u =>
      if String.eqb u EmptyString then VStr "http://localhost:5173"
      else VStr u
    | None => VStr "http://localhost:5173"
    end) by apply js_or_string.
  split_and!; [done|done| | |].
  - rewrite HP. destruct (vars !! "PORT") as [u|]; [|done].
    by destruct (String.eqb u EmptyString) eqn:E; cbn; rewrite ?E.
  - rewrite HO. destruct (vars !! "FRONTEND_URL") as [u|]; [|done].
    by destruct (String.eqb u EmptyString) eqn:E; cbn; rewrite ?E.
  - unfold database_banner, getenv.
    destruct (vars !! "DATABASE_URL") as [u|]; cbn.
    + destruct (String.eqb_spec u EmptyString) as [->|Hne]; cbn.
      * split; [done|]. by intros (u & [= <-] & Hu).
      * split; [eauto|done].
    + split; [done|]. by intros (u & ? & _).
Qed.

(** ** More worked requests *)

Section WorkedRoutes.
Import Demo.
#[local] Existing Instance Demo.pg.

#[local] Instance treino_eq_dec : EqDecision Treino.t.
Proof. solve_decision. Defined.

Lemma referential_check (s : Store) :
  forallb (λ r, existsb (λ w, bool_decide
                                (Secao.treino_id r = Some (Treino.id w)))
                  (treinos s)) (secoes s) = true →
  referential s.
Proof.
  intros Hall. unfold referential. apply Forall_forall. intros r Hr.
  apply list_elem_of_In in Hr. rewrite forallb_forall in Hall.
  apply Hall, existsb_exists in Hr as (w & Hw & Hk).
  exists w. split; [by apply list_elem_of_In|].
  by apply bool_decide_eq_true in Hk.
Qed.

Lemma referential_two : referential two.
Proof. apply referential_check. vm_compute. reflexivity. Qed.

Lemma found_primeiro : found "1" two primeiro.
Proof.
  split; [|reflexivity].
  refine (bool_decide_unpack _ _). vm_compute. exact I.
Qed.

Lemma routes_stop_at_failure_witness :
  issued (fst (route (PostTreino broken_section) (failing 1)
                 (mkWorld two 0))) = 2%nat ∧
  fault (failing 1) 0%nat = false.
Proof.
  split; [vm_compute; reflexivity|].
  apply (routes_stop_at_failure (PostTreino broken_section) (failing 1) two 0).
  vm_compute. lia.
Defined.

Lemma gets_are_read_only_witness :
  fst (serve (route (GetSecoes "1")) down two) = two.
Proof. apply gets_are_read_only. reflexivity. Defined.

Lemma post_then_read_secoes_witness :
  ∃ rows new,
    snd (serve (get_secoes "3") calm
           (fst (serve (post_treino one_section) calm two)))
      = mkResponse 200 (JSecoes rows) ∧
    rows ≡ₚ new ∧
    Forall2 (submitted (Some (treinos_seq two)))
      (elements (field one_section "secoes")) new ∧
    length rows = length (elements (field one_section "secoes")) ∧
    StronglySorted by_ordem rows.
Proof.
  apply (post_then_read_secoes one_section (Some 20240201) "3" calm calm two).
  - exact wf_two.
  - exact referential_two.
  - vm_compute. discriminate.
  - vm_compute. reflexivity.
  - repeat constructor. vm_compute. eexists. reflexivity.
  - intros k _. reflexivity.
  - vm_compute. reflexivity.
  - reflexivity.
Defined.

Lemma put_then_read_secoes_witness :
  ∃ rows new,
    status (snd (serve (put_treino "1" one_section) calm two)) = 200 ∧
    snd (serve (get_secoes "1") calm
           (fst (serve (put_treino "1" one_section) calm two)))
      = mkResponse 200 (JSecoes rows) ∧
    rows ≡ₚ new ∧
    Forall2 (submitted (Some (Treino.id primeiro)))
      (elements (field one_section "secoes")) new ∧
    length rows = length (elements (field one_section "secoes")) ∧
    StronglySorted by_ordem rows.
Proof.
  apply (put_then_read_secoes "1" one_section (Some 20240201) primeiro
           calm calm two).
  - vm_compute. discriminate.
  - vm_compute. reflexivity.
  - exact found_primeiro.
  - repeat constructor. vm_compute. eexists. reflexivity.
  - intros k _. reflexivity.
  - reflexivity.
Defined.

Lemma put_then_read_treino_witness :
  let row := Treino.mk 1 (Some 20240201) (Some "terca") (Some "meia guarda")
               (Some 1000) (Some 1000) in
  snd (serve (put_treino "1" one_section) calm two)
    = mkResponse 200 (JTreino row) ∧
  snd (serve (get_treino "1") calm
         (fst (serve (put_treino "1" one_section) calm two)))
    = mkResponse 200 (JTreino row).
Proof.
  apply (put_then_read_treino "1" one_section (Some 20240201) primeiro
           calm calm two).
  - exact wf_two.
  - vm_compute. discriminate.
  - vm_compute. reflexivity.
  - exact found_primeiro.
  - repeat constructor. vm_compute. eexists. reflexivity.
  - intros k _. reflexivity.
  - reflexivity.
Defined.

Lemma put_keeps_partial_update_witness :
  ∃ s' new,
    serve (put_treino "1" broken_section) calm two
      = (s', mkResponse 500 (JError "Failed to update treino")) ∧
    treinos s' =
      updated (Some 20240201) (Some "terca") (Some "meia guarda") 1000 1
        <$> treinos two ∧
    secoes s' = filter (λ r, Secao.treino_id r ≠ Some 1) (secoes two) ++ new ∧
    Forall2 (submitted (Some 1)) [secao "drill" 15 "gancho" 1] new.
Proof.
  apply (put_keeps_partial_update "1" broken_section (Some 20240201) primeiro
           [secao "drill" 15 "gancho" 1] VNull [secao "luta" 20 "rola" 3]
           calm two).
  - vm_compute. discriminate.
  - vm_compute. reflexivity.
  - exact found_primeiro.
  - reflexivity.
  - reflexivity.
  - vm_compute. reflexivity.
  - repeat constructor. vm_compute. eexists. reflexivity.
  - intros i _. reflexivity.
  - left. intros [row Hrow]. vm_compute in Hrow. discriminate Hrow.
Defined.

Lemma delete_keeps_workout_without_sections_witness :
  ∃ s',
    serve (delete_treino_handler "1") (failing 1) two
      = (s', mkResponse 500 (JError "Failed to delete treino")) ∧
    treinos s' = treinos two ∧
    secoes s' = filter (λ r, Secao.treino_id r ≠ Some 1) (secoes two).
Proof.
  apply (delete_keeps_workout_without_sections "1" 1 (failing 1) two);
    reflexivity.
Defined.

Lemma delete_twice_witness :
  let s' := fst (serve (delete_treino_handler "1") calm two) in
  serve (delete_treino_handler "1") calm s'
    = (s', mkResponse 404 (JError "Treino not found")).
Proof.
  apply (delete_twice "1" calm calm two); [vm_compute|..]; reflexivity.
Defined.

Lemma unreadable_body_is_rejected_witness :
  route (PostTreino VNull) calm (mkWorld two 0)
    = (mkWorld two 0, Ok (mkResponse 500 (JError "Failed to create treino"))) ∧
  route (PutTreino "1" VNull) calm (mkWorld two 0)
    = (mkWorld two 0, Ok (mkResponse 500 (JError "Failed to update treino"))).
Proof. apply unreadable_body_is_rejected. right. reflexivity. Defined.

Lemma post_sends_missing_fields_as_null_witness :
  let row := Treino.mk 3 None None None (Some 1000) (Some 1000) in
  serve (post_treino no_fields) calm two
    = (mkStore (treinos two ++ [row]) (secoes two) 4 5,
       mkResponse 201 (JTreino row)).
Proof.
  apply (post_sends_missing_fields_as_null no_fields calm two).
  - vm_compute. discriminate.
  - left. reflexivity.
  - left. reflexivity.
  - left. reflexivity.
  - reflexivity.
  - reflexivity.
Defined.

Lemma bad_id_is_a_failure_witness :
  serve (route (PutTreino "abc" one_section)) calm two
    = (two, mkResponse 500 (JError "Failed to update treino")).
Proof.
  apply (bad_id_is_a_failure (PutTreino "abc" one_section) "abc" calm two);
    reflexivity.
Defined.

Lemma reachable_stores_are_sound_witness :
  let s := serve_all [(PostTreino broken_section, calm);
                      (DeleteTreino "1", failing 1);
                      (PutTreino "1" one_section, failing 3)] empty in
  wf_store s ∧ referential s.
Proof.
  apply reachable_stores_are_sound. split; reflexivity.
Defined.

End WorkedRoutes.
